(** * convert-chapters.py: chapter text files to JSON records

    A shallow embedding of [scripts/convert-chapters.py] and the properties
    of its numeral decoding, title parsing, paragraph segmentation and
    batch driver.

    Python values are modelled as follows.
    - [str] is a list of Unicode code points ([N]); [len], slicing and
      iteration of a Python string work on code points, not on bytes.
    - [int] is [Z] (Python integers are unbounded).
    - the dict [chinese_nums] is a [gmap str Z].
    - a call that may raise returns a [result]: the value or the exception.
    - the files are explicit: the text files of the source directory in
      the order the directory lists them, and the output directory as a
      map from file names to texts.  Reading and writing succeed; failures
      of the file system are outside this model.
    - the Unicode tables behind [int()] and [str.isdigit()] belong to the
      interpreter and are a parameter ([UnicodeData]). *)

From Stdlib Require Import ZArith NArith List Lia Bool.
From Stdlib Require Import Strings.String Strings.Ascii.
From Stdlib Require Decimal DecimalPos DecimalN.
From stdpp Require Import base option list sorting gmap.

Set Warnings "-register-all".
Local Open Scope Z_scope.

(** ** Strings *)

Abbreviation char := N.
Abbreviation str := (list N).

(** String literals of this file are written in UTF-8, like the source
    file; [u] decodes a literal into its code points. *)
Fixpoint utf8_decode (need : nat) (acc : N) (bs : list N) : str :=
  match bs with
  | [] => []
  | b :: bs' =>
      match need with
      | O =>
          if (b <? 0x80)%N then b :: utf8_decode 0 0%N bs'
          else if (b <? 0xE0)%N then utf8_decode 1 (N.land b 0x1F) bs'
          else if (b <? 0xF0)%N then utf8_decode 2 (N.land b 0x0F) bs'
          else utf8_decode 3 (N.land b 0x07) bs'
      | S O => (acc * 64 + N.land b 0x3F)%N :: utf8_decode 0 0%N bs'
      | S n => utf8_decode n (acc * 64 + N.land b 0x3F)%N bs'
      end
  end.

Definition u (s : string) : str :=
  utf8_decode 0 0%N (List.map (fun a => N_of_ascii a) (list_ascii_of_string s)).

(** ** Python built-ins used by the script *)

(** [Py_UNICODE_ISSPACE]: the code points that [str.strip()] removes and
    that [\s] matches in a [str] pattern. *)
Definition isspace (c : char) : bool :=
  ((0x09 <=? c) && (c <=? 0x0D) || (0x1C <=? c) && (c <=? 0x20)
   || (c =? 0x85) || (c =? 0xA0) || (c =? 0x1680)
   || (0x2000 <=? c) && (c <=? 0x200A)
   || (c =? 0x2028) || (c =? 0x2029) || (c =? 0x202F) || (c =? 0x205F)
   || (c =? 0x3000))%N.

Definition newline : char := 10%N.

Fixpoint lstrip (s : str) : str :=
  match s with
  | c :: r => if isspace c then lstrip r else s
  | [] => []
  end.

Definition rstrip (s : str) : str := rev (lstrip (rev s)).

(** [s.strip()] *)
Definition strip (s : str) : str := rstrip (lstrip s).

(** [s.split(sep)] for a one-character separator: never an empty list. *)
Fixpoint split (sep : char) (s : str) : list str :=
  match s with
  | [] => [[]]
  | c :: r =>
      if (c =? sep)%N then [] :: split sep r
      else match split sep r with
           | l :: ls => (c :: l) :: ls
           | [] => [[c]]
           end
  end.

(** [s.startswith(p)] *)
Fixpoint startswith (s p : str) : bool :=
  match p, s with
  | [], _ => true
  | _ :: _, [] => false
  | a :: p', b :: s' => (a =? b)%N && startswith s' p'
  end.

(** [''.join(parts)] *)
Definition join (parts : list str) : str := concat parts.

(** *** Regular expressions

    [re.match] is a backtracking matcher anchored at the start of the
    string.  The pieces of the title pattern are written as matchers in
    continuation-passing style: a matcher consumes a prefix and hands the
    rest to its continuation; when the continuation fails, a greedy
    repetition retries with one character less. *)
Section Regex.
Context {R : Type}.

(** a literal character *)
Definition re_lit (c : char) (k : str -> option R) (s : str) : option R :=
  match s with
  | c' :: r => if (c' =? c)%N then k r else None
  | [] => None
  end.

(** [[class]*], greedy; the continuation receives the matched text and
    the rest *)
Fixpoint re_star (p : char -> bool) (k : str -> str -> option R) (s : str)
  : option R :=
  match s with
  | c :: r =>
      if p c then
        match re_star p (fun m => k (c :: m)) r with
        | Some x => Some x
        | None => k [] s
        end
      else k [] s
  | [] => k [] []
  end.

(** [[class]+], greedy *)
Definition re_plus (p : char -> bool) (k : str -> str -> option R) (s : str)
  : option R :=
  match s with
  | c :: r => if p c then re_star p (fun m => k (c :: m)) r else None
  | [] => None
  end.
End Regex.

(** ** The script *)

Definition di : char := 0x7B2C%N.   (* 第 *)
Definition hui : char := 0x56DE%N.  (* 回 *)

(** the class [[一二三四五六七八九十百零]] *)
Definition numeral_glyph (c : char) : bool :=
  existsb (N.eqb c) (u "一二三四五六七八九十百零").

(** [.] without DOTALL: any character except a newline *)
Definition re_dot (c : char) : bool := negb (c =? newline)%N.

(** [re.match(r'第([一二三四五六七八九十百零]+)回\s*(.+)', s)]: the two
    groups of the match, or [None]. *)
Definition title_re (s : str) : option (str * str) :=
  re_lit di
    (re_plus numeral_glyph (fun g1 =>
       re_lit hui
         (re_star isspace (fun _ =>
            re_plus re_dot (fun g2 _ => Some (g1, g2)))))) s.

(** The dict [chinese_nums], lines 29-36. *)
Definition chinese_nums : gmap str Z :=
  list_to_map
    [ (u "一", 1); (u "二", 2); (u "三", 3); (u "四", 4); (u "五", 5);
      (u "六", 6); (u "七", 7); (u "八", 8); (u "九", 9); (u "十", 10);
      (u "十一", 11); (u "十二", 12); (u "十三", 13); (u "十四", 14); (u "十五", 15);
      (u "十六", 16); (u "十七", 17); (u "十八", 18); (u "十九", 19); (u "二十", 20);
      (u "二十一", 21); (u "二十二", 22); (u "二十三", 23); (u "二十四", 24);
      (u "二十五", 25);
      (u "百", 100); (u "零", 0) ].

(** The conversion of the matched numeral, lines 45-62 of
    [parse_chapter_title]. *)
Definition chinese_to_arabic (chinese_num : str) : Z :=
  match chinese_nums !! chinese_num with
  | Some v => v
  | None =>
      if startswith chinese_num (u "二十") then
        if (length chinese_num =? 2)%nat then 20
        else 20 + default 0 (chinese_nums !! drop 2 chinese_num)
      else if startswith chinese_num (u "十") then
        if (length chinese_num =? 1)%nat then 10
        else 10 + default 0 (chinese_nums !! drop 1 chinese_num)
      else
        fold_left
          (fun chapter_num c =>
             match chinese_nums !! [c] with
             | Some v => chapter_num + v
             | None => chapter_num
             end)
          chinese_num 0
  end.

(** Lines 21-66: the chapter number and the title text of a first line. *)
Definition parse_chapter_title (first_line : str) : Z * str :=
  match title_re (strip first_line) with
  | Some (chinese_num, g2) =>
      let title_text := strip g2 in
      (chinese_to_arabic chinese_num, title_text)
  | None => (0, strip first_line)
  end.

(** ** Data model *)

(** [{"content": [para_text]}] *)
Record Paragraph := { content : list str }.

(** the dict returned by [parse_txt_file] *)
Record Chapter := {
  id : Z;
  title : str;
  titleText : str;
  paragraphs : list Paragraph
}.

Inductive exn :=
| ValueError (literal : str).   (* invalid literal for int() with base 10 *)

(** The outcome of a call that may raise. *)
Inductive result (A : Type) :=
| Return (a : A)
| Raise (e : exn).
Arguments Return {A} a.
Arguments Raise {A} e.

#[global] Instance result_bind : MBind result :=
  fun A B (k : A -> result B) (r : result A) =>
    match r with
    | Return a => k a
    | Raise e => Raise e
    end.

(** ** [int()] and [str.isdigit()]

    Both consult the Unicode character database of the interpreter, which
    is not part of the script: the table of decimal values and the digit
    property are parameters. *)
Class UnicodeData := {
  (** [Py_UNICODE_TODECIMAL]: the value of a character with the Decimal
      property *)
  todecimal : char -> option N;
  (** [Py_UNICODE_ISDIGIT]: Numeric_Type is Digit or Decimal *)
  isdigit_cp : char -> bool
}.

(** [Py_ISSPACE], the ASCII white space skipped by [PyLong_FromString] *)
Definition Py_ISSPACE (c : char) : bool :=
  ((9 <=? c) && (c <=? 13) || (c =? 32))%N.

Definition ascii_digit (c : char) : option Z :=
  if ((48 <=? c) && (c <=? 57))%N then Some (Z.of_N c - 48) else None.

Fixpoint skip (p : char -> bool) (s : str) : str :=
  match s with
  | c :: r => if p c then skip p r else s
  | [] => []
  end.

(** The digits of a base-10 literal after a first digit: digits separated
    by single underscores.  Returns the value and the unread rest. *)
Fixpoint long_digits (acc : Z) (s : str) : option (Z * str) :=
  match s with
  | [] => Some (acc, [])
  | c :: r =>
      match ascii_digit c with
      | Some d => long_digits (acc * 10 + d) r
      | None =>
          if (c =? 95)%N then                      (* '_' *)
            match r with
            | c' :: r' =>
                match ascii_digit c' with
                | Some d => long_digits (acc * 10 + d) r'
                | None => None
                end
            | [] => None
            end
          else Some (acc, s)
      end
  end.

(** [PyLong_FromString(buffer, &end, 10)] followed by the check that the
    whole buffer was read. *)
Definition long_from_string (buffer : str) : option Z :=
  let s := skip Py_ISSPACE buffer in
  let '(negative, s) :=
    match s with
    | c :: r =>
        if (c =? 43)%N then (false, r)              (* '+' *)
        else if (c =? 45)%N then (true, r)          (* '-' *)
        else (false, s)
    | [] => (false, s)
    end in
  match s with
  | c :: r =>
      match ascii_digit c with
      | Some d =>
          match long_digits d r with
          | Some (n, rest) =>
              match skip Py_ISSPACE rest with
              | [] => Some (if negative then - n else n)
              | _ :: _ => None
              end
          | None => None
          end
      | None => None
      end
  | [] => None
  end.

Section Builtins.
Context `{UnicodeData}.

(** [_PyUnicode_TransformDecimalAndSpaceToASCII]: an ASCII string is
    taken as it is; otherwise spaces become [' '], decimal digits their
    ASCII digit, and the first other non-ASCII character ends the buffer
    with ['?']. *)
Fixpoint transform_decimal_and_space (s : str) : str :=
  match s with
  | [] => []
  | c :: r =>
      if (c <? 127)%N then c :: transform_decimal_and_space r
      else if isspace c then 32%N :: transform_decimal_and_space r
      else match todecimal c with
           | Some d => (48 + d)%N :: transform_decimal_and_space r
           | None => [63%N]
           end
  end.

Definition to_ascii (s : str) : str :=
  if forallb (fun c => (c <? 128)%N) s then s
  else transform_decimal_and_space s.

(** [int(s)].  The limit on the number of digits (4300 by default) is
    not modelled: the argument is a file name. *)
Definition py_int (s : str) : result Z :=
  match long_from_string (to_ascii s) with
  | Some n => Return n
  | None => Raise (ValueError s)
  end.

(** [s.isdigit()] *)
Definition isdigit (s : str) : bool :=
  match s with
  | [] => false
  | _ => forallb isdigit_cp s
  end.
End Builtins.

(** ** Integers and JSON text *)

Fixpoint uint_digits (d : Decimal.uint) : str :=
  match d with
  | Decimal.Nil => []
  | Decimal.D0 d => 48%N :: uint_digits d
  | Decimal.D1 d => 49%N :: uint_digits d
  | Decimal.D2 d => 50%N :: uint_digits d
  | Decimal.D3 d => 51%N :: uint_digits d
  | Decimal.D4 d => 52%N :: uint_digits d
  | Decimal.D5 d => 53%N :: uint_digits d
  | Decimal.D6 d => 54%N :: uint_digits d
  | Decimal.D7 d => 55%N :: uint_digits d
  | Decimal.D8 d => 56%N :: uint_digits d
  | Decimal.D9 d => 57%N :: uint_digits d
  end.

Definition digits_of (n : Z) : str := uint_digits (N.to_uint (Z.abs_N n)).

(** [repr(n)] of an int *)
Definition int_repr (n : Z) : str :=
  if n <? 0 then 45%N :: digits_of n else digits_of n.

Definition zfill (width : nat) (digits : str) : str :=
  repeat 48%N (width - length digits) ++ digits.

(** [f"{n:03d}"]: the sign counts in the width *)
Definition format_03d (n : Z) : str :=
  if n <? 0 then 45%N :: zfill 2 (digits_of n) else zfill 3 (digits_of n).

(** The values [json.dump] receives from the script. *)
Inductive json :=
| JInt (n : Z)
| JStr (s : str)
| JList (items : list json)
| JDict (items : list (str * json)).

Definition hex_digit (n : N) : char :=
  if (n <? 10)%N then (48 + n)%N else (87 + n)%N.

(** [ESCAPE_DCT] of [json.encoder], used when [ensure_ascii] is false *)
Definition json_escape (c : char) : str :=
  if (c =? 34)%N then [92; 34]%N               (* the double quote *)
  else if (c =? 92)%N then [92; 92]%N          (* the backslash *)
  else if (c =? 8)%N then [92; 98]%N           (* \b *)
  else if (c =? 12)%N then [92; 102]%N         (* \f *)
  else if (c =? 10)%N then [92; 110]%N         (* \n *)
  else if (c =? 13)%N then [92; 114]%N         (* \r *)
  else if (c =? 9)%N then [92; 116]%N          (* \t *)
  else if (c <? 32)%N then
    [92; 117; 48; 48; hex_digit (c / 16); hex_digit (c mod 16)]%N
  else [c].

Definition encode_basestring (s : str) : str :=
  34%N :: concat (map json_escape s) ++ [34%N].

Fixpoint join_with (sep : str) (parts : list str) : str :=
  match parts with
  | [] => []
  | [x] => x
  | x :: rest => x ++ sep ++ join_with sep rest
  end.

Definition newline_indent (level : nat) : str :=
  10%N :: repeat 32%N (2 * level).

(** [json.dumps(j, ensure_ascii=False, indent=2)] at a nesting level *)
Fixpoint json_encode (level : nat) (j : json) : str :=
  match j with
  | JInt n => int_repr n
  | JStr s => encode_basestring s
  | JList [] => u "[]"
  | JList items =>
      u "[" ++ newline_indent (S level)
        ++ join_with (u "," ++ newline_indent (S level))
             (List.map (json_encode (S level)) items)
        ++ newline_indent level ++ u "]"
  | JDict [] => u "{}"
  | JDict items =>
      u "{" ++ newline_indent (S level)
        ++ join_with (u "," ++ newline_indent (S level))
             (List.map (fun kv => encode_basestring (fst kv) ++ u ": "
                                  ++ json_encode (S level) (snd kv)) items)
        ++ newline_indent level ++ u "}"
  end.

(** ** Files *)

(** [s.rfind(c)], [None] for -1 *)
Fixpoint rfind (c : char) (s : str) : option nat :=
  match s with
  | [] => None
  | x :: r =>
      match rfind c r with
      | Some i => Some (S i)
      | None => if (x =? c)%N then Some O else None
      end
  end.

(** [PurePath.stem] of a file name *)
Definition path_stem (name : str) : str :=
  match rfind 46%N name with
  | Some i =>
      if ((0 <? i) && (i <? length name - 1))%nat then take i name else name
  | None => name
  end.

(** A text file of the source directory: its name and the text that
    [f.read()] returns. *)
Record TxtFile := { name : str; text : str }.

Definition stem (p : TxtFile) : str := path_stem (name p).

(** ** [parse_txt_file] *)

Definition nonempty {A} (l : list A) : bool :=
  match l with [] => false | _ :: _ => true end.

(** One iteration of the loop over [lines[1:]]; the state is
    [(paragraphs, current_paragraph)]. *)
Definition paragraph_step (st : list Paragraph * list str) (line : str)
  : list Paragraph * list str :=
  let '(paragraphs, current_paragraph) := st in
  let stripped := strip line in
  if nonempty stripped then (paragraphs, current_paragraph ++ [stripped])
  else if nonempty current_paragraph then
    (paragraphs ++ [{| content := [join current_paragraph] |}], [])
  else st.

(** Lines 98-114 *)
Definition parse_paragraphs (rest : list str) : list Paragraph :=
  let '(paragraphs, current_paragraph) :=
    fold_left paragraph_step rest ([], []) in
  if nonempty current_paragraph then
    paragraphs ++ [{| content := [join current_paragraph] |}]
  else paragraphs.

Section Script.
Context `{UnicodeData}.

Definition parse_txt_file (file_path : TxtFile) : result Chapter :=
  let lines := split newline (strip (text file_path)) in
  let first_line := strip (hd [] lines) in
  let '(chapter_num, title_text) := parse_chapter_title first_line in
  chapter_num ←
    (if chapter_num =? 0 then py_int (stem file_path)
     else Return chapter_num);
  let paragraphs := parse_paragraphs (tl lines) in
  Return {| id := chapter_num;
            title := first_line;
            titleText := title_text;
            paragraphs := paragraphs |}.
End Script.

(** ** [main] *)

(** The lines printed on standard output. *)
Inductive stdout_line :=
| NoFilesFound
| Found (n : nat)
| Processing (file_name : str)
| Created (output_name : str) (chapter_num : Z) (title20 : str)
| Error (e : exn)
| Done.

(** The files the script touches: the [*.txt] entries of [SOURCE_DIR] in
    the order [glob] yields them, and [OUTPUT_DIR] ([None] while it does
    not exist, else its files by name). *)
Record Files := {
  source_dir : list TxtFile;
  output_dir : option (gmap str str)
}.

(** What a run leaves behind. *)
Record Run := {
  files : Files;
  stdout : list stdout_line;
  raised : option exn
}.

(** [sorted(l, key=...)] on already computed keys: stable. *)
Fixpoint insert_by_key {A} (x : Z * A) (l : list (Z * A)) : list (Z * A) :=
  match l with
  | [] => [x]
  | y :: l' => if x.1 <=? y.1 then x :: l else y :: insert_by_key x l'
  end.

Definition sort_by_key {A} (l : list (Z * A)) : list (Z * A) :=
  foldr insert_by_key [] l.

(** The dict of lines 116-121 as a JSON value, keys in insertion order. *)
Definition chapter_json (c : Chapter) : json :=
  JDict [ (u "id", JInt (id c));
          (u "title", JStr (title c));
          (u "titleText", JStr (titleText c));
          (u "paragraphs",
           JList (map (fun p => JDict [(u "content", JList (map JStr (content p)))])
                      (paragraphs c))) ].

(** the text written by
    [json.dump(chapter_data, f, ensure_ascii=False, indent=2)] *)
Definition json_dump (chapter_data : Chapter) : str :=
  json_encode 0 (chapter_json chapter_data).

Section Main.
Context `{UnicodeData}.

(** [lambda p: int(p.stem) if p.stem.isdigit() else 0] *)
Definition sort_key (p : TxtFile) : result Z :=
  if isdigit (stem p) then py_int (stem p) else Return 0.

Fixpoint keyed (l : list TxtFile) : result (list (Z * TxtFile)) :=
  match l with
  | [] => Return []
  | p :: l' =>
      k ← sort_key p;
      rest ← keyed l';
      Return ((k, p) :: rest)
  end.

Definition sorted (l : list TxtFile) : result (list TxtFile) :=
  kl ← keyed l;
  Return (map snd (sort_by_key kl)).

(** The body of the loop of [main]; the state is the content of
    [OUTPUT_DIR] and the output printed so far. *)
Definition process (st : gmap str str * list stdout_line) (txt_file : TxtFile)
  : gmap str str * list stdout_line :=
  let '(out, log) := st in
  let log := log ++ [Processing (name txt_file)] in
  match parse_txt_file txt_file with
  | Return chapter_data =>
      let chapter_num := id chapter_data in
      let output_file := u "chapter-" ++ format_03d chapter_num ++ u ".json" in
      (<[output_file := json_dump chapter_data]> out,
       log ++ [Created output_file chapter_num
                 (take 20 (titleText chapter_data))])
  | Raise e => (out, log ++ [Error e])
  end.

Definition main (fs : Files) : Run :=
  (* OUTPUT_DIR.mkdir(parents=True, exist_ok=True) *)
  let out := default ∅ (output_dir fs) in
  let fs := {| source_dir := source_dir fs; output_dir := Some out |} in
  match sorted (source_dir fs) with
  | Raise e => {| files := fs; stdout := []; raised := Some e |}
  | Return txt_files =>
      if nonempty txt_files then
        let '(out, log) :=
          fold_left process txt_files (out, [Found (length txt_files)]) in
        {| files := {| source_dir := source_dir fs; output_dir := Some out |};
           stdout := log ++ [Done];
           raised := None |}
      else {| files := fs; stdout := [NoFilesFound]; raised := None |}
  end.
End Main.

(** An excerpt of the Unicode database for Latin-1: the ASCII digits are
    decimal digits; the superscripts two, three and one are digits without
    a decimal value. *)
Definition latin1 : UnicodeData :=
  {| todecimal c := if ((48 <=? c) && (c <=? 57))%N then Some (c - 48)%N else None;
     isdigit_cp c := ((48 <=? c) && (c <=? 57) || (c =? 0xB2) || (c =? 0xB3)
                      || (c =? 0xB9))%N |}.

(** ** The specification's wording, as definitions

    These follow the prose of the specification and are compared with the
    code above. *)
Module Spec.

(** The glyphs of one to nine. *)
Definition digit_glyph (d : Z) : str :=
  take 1 (drop (Z.to_nat (d - 1)) (u "一二三四五六七八九")).

(** The written numeral of [n], for 1 to 25. *)
Definition numeral (n : Z) : str :=
  if n <? 10 then digit_glyph n
  else if n =? 10 then u "十"
  else if n <? 20 then u "十" ++ digit_glyph (n - 10)
  else if n =? 20 then u "二十"
  else u "二十" ++ digit_glyph (n - 20).

(** The fixed table: one to twenty-five individually, then the bare
    glyphs of hundred and zero. *)
Definition table : list (str * Z) :=
  map (fun n => (numeral n, n)) (seqZ 1 25) ++ [(u "百", 100); (u "零", 0)].

(** Exact-match lookup. *)
Fixpoint assoc (key : str) (l : list (str * Z)) : option Z :=
  match l with
  | [] => None
  | (k, v) :: l' => if decide (k = key) then Some v else assoc key l'
  end.

Definition lookup (s : str) : option Z := assoc s table.

(** The table value of [s], 0 when [s] is not in the table. *)
Definition value (s : str) : Z :=
  match lookup s with Some v => v | None => 0 end.

Definition starts_with (p s : str) : Prop := exists rest, s = p ++ rest.

#[global] Instance starts_with_dec p s : Decision (starts_with p s).
Proof.
  destruct (decide (take (length p) s = p)) as [E | N].
  - left. exists (drop (length p) s). rewrite <- E at 1. symmetry. apply take_drop.
  - right. intros [rest ->]. apply N. by rewrite take_app_length.
Defined.

(** The Numeral Parser of section 4.1. *)
Definition numeral_parser (s : str) : Z :=
  match lookup s with
  | Some v => v
  | None =>
      if decide (starts_with (u "二十") s) then
        if decide (length s = 2%nat) then 20 else 20 + value (drop 2 s)
      else if decide (starts_with (u "十") s) then
        if decide (length s = 1%nat) then 10 else 10 + value (drop 1 s)
      else foldr Z.add 0 (map (fun c => value [c]) s)
  end.

(** A blank line: nothing but white space. *)
Definition blank (line : str) : bool := forallb isspace line.

(** The lines cut at every blank line: the groups between blank lines. *)
Fixpoint groups (lines : list str) : list (list str) :=
  match lines with
  | [] => [[]]
  | l :: rest =>
      if blank l then [] :: groups rest
      else match groups rest with
           | g :: gs => (l :: g) :: gs
           | [] => [[l]]
           end
  end.

(** The maximal runs of consecutive non-blank lines. *)
Definition runs (lines : list str) : list (list str) :=
  filter (fun g => g <> []) (groups lines).

(** What a maximal run is: consecutive non-blank lines, at least one, with
    a blank line or an end of the input on either side. *)
Definition maximal_run (lines run : list str) : Prop :=
  run <> [] /\ Forall (fun l => blank l = false) run
  /\ exists before after,
       lines = before ++ run ++ after
       /\ (before = [] \/ exists b l, before = b ++ [l] /\ blank l = true)
       /\ (after = [] \/ exists l a, after = l :: a /\ blank l = true).

(** One Paragraph per run: the stripped lines, concatenated. *)
Definition paragraphs_of (lines : list str) : list Paragraph :=
  map (fun run => {| content := [concat (map strip run)] |}) (runs lines).

End Spec.

(** The trimmed first line of a file, [first_line] in [parse_txt_file]. *)
Definition title_line (f : TxtFile) : str :=
  strip (hd [] (split newline (strip (text f)))).

(** The lines after the title line, [lines[1:]]. *)
Definition body_lines (f : TxtFile) : list str :=
  tl (split newline (strip (text f))).

(** ** Auxiliary notions for the proofs *)

(** The longest prefix of [s] whose characters satisfy [p]; [skip p s] is
    the rest. *)
Fixpoint span (p : char -> bool) (s : str) : str :=
  match s with
  | c :: r => if p c then c :: span p r else []
  | [] => []
  end.

(** A string with at least one character that is not white space. *)
Definition has_text (s : str) : Prop := forallb isspace s = false.

(** The characters of a Paragraph. *)
Definition paragraph_text (p : Paragraph) : str := concat (content p).

(** The Paragraph made of the buffered lines. *)
Definition paragraph_of (stripped : list str) : Paragraph :=
  {| content := [join stripped] |}.

(** The state of the loop, closed the way lines 112-114 close it. *)
Definition flush (st : list Paragraph * list str) : list Paragraph :=
  if nonempty st.2 then st.1 ++ [paragraph_of st.2] else st.1.

(** The groups still to come, the first one continuing the buffer. *)
Definition pending (current : list str) (gs : list (list str)) : list (list str) :=
  match gs with
  | g :: gs' => (current ++ map strip g) :: map (map strip) gs'
  | [] => [current]
  end.

Definition emit (gs : list (list str)) : list Paragraph :=
  map paragraph_of (filter (fun g => g <> []) gs).

Section DriverNotions.
Context `{UnicodeData}.

(** The file a source file is converted to, if its parsing succeeds. *)
Definition output_of (txt_file : TxtFile) : option (str * str) :=
  match parse_txt_file txt_file with
  | Return chapter_data =>
      Some (u "chapter-" ++ format_03d (id chapter_data) ++ u ".json",
            json_dump chapter_data)
  | Raise _ => None
  end.

(** The lines printed for one source file. *)
Definition lines_of (txt_file : TxtFile) : list stdout_line :=
  Processing (name txt_file) ::
  match parse_txt_file txt_file with
  | Return chapter_data =>
      [Created (u "chapter-" ++ format_03d (id chapter_data) ++ u ".json")
         (id chapter_data) (take 20 (titleText chapter_data))]
  | Raise e => [Error e]
  end.

Definition write (out : gmap str str) (kv : str * str) : gmap str str :=
  <[kv.1 := kv.2]> out.

End DriverNotions.

(** ** Further notions *)

Definition ling : char := 0x96F6%N.   (* 零 *)

(** The usual written numeral of [n], for 1 to 99: the tens ([十] alone for
    one ten), then the units. *)
Definition standard_numeral (n : Z) : str :=
  (if n / 10 =? 0 then []
   else if n / 10 =? 1 then u "十"
   else Spec.digit_glyph (n / 10) ++ u "十")
  ++ (if n mod 10 =? 0 then [] else Spec.digit_glyph (n mod 10)).

(** The characters of a text that are not white space, in order. *)
Definition ink (s : str) : str := filter (fun c => isspace c = false) s.

Section KeyNotions.
Context `{UnicodeData}.

(** The sort key of a file whose key does not raise. *)
Definition key_of (p : TxtFile) : Z :=
  match sort_key p with
  | Return k => k
  | Raise _ => 0
  end.

(** The id a file is converted with, if its parsing succeeds. *)
Definition id_of (p : TxtFile) : option Z :=
  match parse_txt_file p with
  | Return chapter_data => Some (id chapter_data)
  | Raise _ => None
  end.

(** The files a run goes through, in order: none when a sort key raises. *)
Definition processed (l : list TxtFile) : list TxtFile :=
  match sorted l with
  | Return txt_files => txt_files
  | Raise _ => []
  end.

End KeyNotions.

(** The name of the output file of an id, line 146. *)
Definition output_name (chapter_num : Z) : str :=
  u "chapter-" ++ format_03d chapter_num ++ u ".json".

(** What the conversion returns on the usual numeral of [n]. *)
Definition numeral_result (n : Z) : Z :=
  if n <=? 29 then n else n / 10 + 10 + n mod 10.

Arguments chinese_nums : simpl never.
Arguments Spec.lookup : simpl never.
Arguments Spec.table : simpl never.

(** *** Tactics *)

(** Replace a literal by its code points. *)
Ltac literal s :=
  let v := eval vm_compute in s in
  replace s with v by (vm_compute; reflexivity).

(** Close a goal on a marked title with an instance [E] of the lemma on
    titles with a marker. *)
Ltac by_marker E :=
  let HX := fresh "HX" in
  let Hnl := fresh "Hnl" in
  let HE := fresh "HE" in
  intros HX Hnl;
  pose proof (E HX Hnl) as HE;
  cbn [app] in HE; unfold di, hui in HE; cbn [app];
  rewrite HE; f_equal; vm_compute; reflexivity.

(** Decide a closed proposition by evaluation. *)
Ltac by_decide := refine (bool_decide_unpack _ _); vm_compute; exact I.

(** * Properties *)

(** ** The model at work *)

Example u_ascii : u "5.txt" = [53; 46; 116; 120; 116]%N.
Proof. reflexivity. Qed.

Example u_cjk : u "第一回" = [0x7B2C; 0x4E00; 0x56DE]%N.
Proof. reflexivity. Qed.

Example strip_ideographic_space : strip (u "　 第一回 甲 　") = u "第一回 甲".
Proof. vm_compute. reflexivity. Qed.

Example split_lines :
  split newline (u "a" ++ [newline] ++ u "b" ++ [newline; newline] ++ u "c" ++ [newline])
  = [u "a"; u "b"; u ""; u "c"; u ""].
Proof. vm_compute. reflexivity. Qed.

Example table_21 : chinese_nums !! (u "二十一") = Some 21.
Proof. vm_compute. reflexivity. Qed.

Example table_26 : chinese_nums !! (u "二十六") = None.
Proof. vm_compute. reflexivity. Qed.

Example title_docstring :
  parse_chapter_title (u "第一回 甄士隱夢幻識通靈 賈雨村風塵懷閨秀")
  = (1, u "甄士隱夢幻識通靈 賈雨村風塵懷閨秀").
Proof. vm_compute. reflexivity. Qed.

Example title_29 : parse_chapter_title (u " 第二十九回　 a b  ") = (29, u "a b").
Proof. vm_compute. reflexivity. Qed.

(** Unstripped, a title with only white space after [回] would match by
    backtracking; [parse_chapter_title] strips first. *)
Example title_re_backtracks :
  title_re (u "第一回  ") = Some (u "一", u " ")
  /\ parse_chapter_title (u "第一回  ") = (0, u "第一回").
Proof. vm_compute. auto. Qed.

Example int_literals :
  @py_int latin1 (u "5") = Return 5
  /\ @py_int latin1 (u "007") = Return 7
  /\ @py_int latin1 (u " -1_0 ") = Return (-10)
  /\ @py_int latin1 (u "1__0") = Raise (ValueError (u "1__0"))
  /\ @py_int latin1 (u "") = Raise (ValueError (u ""))
  /\ @py_int latin1 (u "²") = Raise (ValueError (u "²"))
  /\ @isdigit latin1 (u "²") = true.
Proof. vm_compute. repeat split. Qed.

Example stems :
  path_stem (u "5.txt") = u "5" /\ path_stem (u ".txt") = u ".txt"
  /\ path_stem (u "a.b.txt") = u "a.b".
Proof. vm_compute. auto. Qed.

Example format_names :
  format_03d 7 = u "007" /\ format_03d (-5) = u "-05"
  /\ format_03d 1234 = u "1234" /\ format_03d 0 = u "000".
Proof. vm_compute. auto. Qed.

(** The text of an output file, with ['] standing for the double quote. *)
Example json_text :
  json_dump {| id := 1; title := u "第一回 甲"; titleText := u "甲";
               paragraphs := [ {| content := [u "AB"] |};
                               {| content := [u "C" ++ [9%N]] |} ] |}
  = map (fun c => if (c =? 39)%N then 34%N else c)
      (u "{
  'id': 1,
  'title': '第一回 甲',
  'titleText': '甲',
  'paragraphs': [
    {
      'content': [
        'AB'
      ]
    },
    {
      'content': [
        'C\t'
      ]
    }
  ]
}").
Proof. vm_compute. reflexivity. Qed.

(** The segmentation example of the specification, as a file. *)
Example segmentation_file :
  @parse_txt_file latin1
    {| name := u "1.txt";
       text := u "第一回 甲" ++ [newline; newline] ++ u "A" ++ [newline] ++ u "B"
                 ++ [newline; newline; newline] ++ u "C" ++ [newline] |}
  = Return {| id := 1; title := u "第一回 甲"; titleText := u "甲";
              paragraphs := [ {| content := [u "AB"] |};
                              {| content := [u "C"] |} ] |}.
Proof. vm_compute. reflexivity. Qed.

Example run_two_files :
  @main latin1
    {| source_dir := [ {| name := u "10.txt"; text := u "第十回 乙" |};
                       {| name := u "x.txt"; text := u "Preface" |};
                       {| name := u "2.txt"; text := u "第二回 甲" |} ];
       output_dir := None |}
  = {| files :=
         {| source_dir := [ {| name := u "10.txt"; text := u "第十回 乙" |};
                            {| name := u "x.txt"; text := u "Preface" |};
                            {| name := u "2.txt"; text := u "第二回 甲" |} ];
            output_dir :=
              Some (<[u "chapter-010.json" :=
                        json_dump {| id := 10; title := u "第十回 乙";
                                     titleText := u "乙"; paragraphs := [] |}]>
                      (<[u "chapter-002.json" :=
                           json_dump {| id := 2; title := u "第二回 甲";
                                        titleText := u "甲"; paragraphs := [] |}]>
                         ∅)) |};
       stdout := [ Found 3;
                   Processing (u "x.txt"); Error (ValueError (u "x"));
                   Processing (u "2.txt");
                   Created (u "chapter-002.json") 2 (u "甲");
                   Processing (u "10.txt");
                   Created (u "chapter-010.json") 10 (u "乙");
                   Done ];
       raised := None |}.
Proof. vm_compute. reflexivity. Qed.

(** ** White space and [strip] *)

Lemma span_skip p s : span p s ++ skip p s = s.
Proof. induction s as [|c r IH]; simpl; [done|]. destruct (p c); simpl; [by rewrite IH | done]. Qed.

Lemma span_all p s : forallb p s = true -> span p s = s /\ skip p s = [].
Proof.
  induction s as [|c r IH]; simpl; [done|].
  intros [Hc Hr]%andb_true_iff. rewrite Hc. destruct (IH Hr) as [-> ->]. done.
Qed.

Lemma span_app_stop p a c r :
  forallb p a = true -> p c = false ->
  span p (a ++ c :: r) = a /\ skip p (a ++ c :: r) = c :: r.
Proof.
  induction a as [|x a IH]; simpl; intros Ha Hc.
  - by rewrite Hc.
  - apply andb_true_iff in Ha as [Hx Ha]. rewrite Hx.
    destruct (IH Ha Hc) as [-> ->]. done.
Qed.

Lemma lstrip_skip s : lstrip s = skip isspace s.
Proof. induction s as [|c r IH]; simpl; [done|]. by rewrite IH. Qed.

Lemma lstrip_all_space s : forallb isspace s = true -> lstrip s = [].
Proof. intros Hs. rewrite lstrip_skip. by apply span_all. Qed.

Lemma lstrip_app_space a b : forallb isspace a = true -> lstrip (a ++ b) = lstrip b.
Proof.
  induction a as [|x a IH]; simpl; [done|].
  intros [-> Ha]%andb_true_iff. auto.
Qed.

Lemma lstrip_head c r : isspace c = false -> lstrip (c :: r) = c :: r.
Proof. simpl. by intros ->. Qed.

Lemma has_text_split s :
  has_text s ->
  exists ws c r, s = ws ++ c :: r /\ forallb isspace ws = true /\ isspace c = false.
Proof.
  unfold has_text. induction s as [|x s IH]; simpl; [done|].
  destruct (isspace x) eqn:Hx; simpl.
  - intros Hs. destruct (IH Hs) as (ws & c & r & -> & Hws & Hc).
    exists (x :: ws), c, r. simpl. by rewrite Hx, Hws.
  - intros _. by exists [], x, s.
Qed.

Lemma has_text_app_l a b : has_text a -> has_text (a ++ b).
Proof.
  unfold has_text. rewrite forallb_app. by intros ->.
Qed.

Lemma has_text_app_r a b : has_text b -> has_text (a ++ b).
Proof.
  unfold has_text. rewrite forallb_app. intros ->. apply andb_false_r.
Qed.

Lemma has_text_rev s : has_text (rev s) <-> has_text s.
Proof.
  unfold has_text. induction s as [|x s IH]; simpl; [done|].
  rewrite forallb_app. simpl. rewrite andb_true_r, andb_comm.
  destruct (isspace x); simpl; [apply IH | done].
Qed.

Lemma all_space_rev s : forallb isspace (rev s) = forallb isspace s.
Proof.
  destruct (forallb isspace s) eqn:E.
  - induction s as [|x s IH]; simpl in *; [done|].
    apply andb_true_iff in E as [Hx Hs]. rewrite forallb_app. simpl.
    by rewrite IH, Hx.
  - by apply has_text_rev.
Qed.

Lemma lstrip_app_text a b : has_text a -> lstrip (a ++ b) = lstrip a ++ b.
Proof.
  intros (ws & c & r & -> & Hws & Hc)%has_text_split.
  rewrite <- app_assoc. rewrite (lstrip_app_space ws (_ ++ b)) by done.
  rewrite (lstrip_app_space ws (c :: r)) by done.
  simpl. by rewrite Hc.
Qed.

Lemma lstrip_nil_iff s : lstrip s = [] <-> forallb isspace s = true.
Proof.
  split; [|apply lstrip_all_space].
  destruct (forallb isspace s) eqn:E; [done|].
  destruct (has_text_split s E) as (ws & c & r & -> & Hws & Hc).
  rewrite lstrip_app_space by done. simpl. by rewrite Hc.
Qed.

Lemma lstrip_text s : has_text s -> exists c r, lstrip s = c :: r /\ isspace c = false.
Proof.
  intros (ws & c & r & -> & Hws & Hc)%has_text_split.
  exists c, r. rewrite lstrip_app_space by done. simpl. by rewrite Hc.
Qed.

Lemma lstrip_has_text s : has_text s -> has_text (lstrip s).
Proof.
  intros (ws & c & r & -> & Hws & Hc)%has_text_split.
  rewrite lstrip_app_space by done. simpl. rewrite Hc.
  unfold has_text. simpl. by rewrite Hc.
Qed.

Lemma lstrip_idemp s : lstrip (lstrip s) = lstrip s.
Proof.
  induction s as [|c r IH]; simpl; [done|].
  destruct (isspace c) eqn:Hc; [done|]. simpl. by rewrite Hc.
Qed.

Lemma rstrip_all_space s : forallb isspace s = true -> rstrip s = [].
Proof.
  intros Hs. unfold rstrip. rewrite lstrip_all_space; [done|].
  by rewrite all_space_rev.
Qed.

Lemma rstrip_nil_iff s : rstrip s = [] <-> forallb isspace s = true.
Proof.
  split; [|apply rstrip_all_space].
  unfold rstrip. intros E. apply (f_equal (@rev N)) in E.
  rewrite rev_involutive in E. simpl in E.
  apply lstrip_nil_iff in E. by rewrite all_space_rev in E.
Qed.

Lemma rstrip_app_space a b : forallb isspace b = true -> rstrip (a ++ b) = rstrip a.
Proof.
  intros Hb. unfold rstrip. rewrite rev_app_distr.
  rewrite lstrip_app_space; [done|]. by rewrite all_space_rev.
Qed.

Lemma rstrip_app_text a b : has_text b -> rstrip (a ++ b) = a ++ rstrip b.
Proof.
  intros Hb. unfold rstrip. rewrite rev_app_distr.
  rewrite lstrip_app_text by (by apply has_text_rev).
  by rewrite rev_app_distr, rev_involutive.
Qed.

Lemma rstrip_idemp s : rstrip (rstrip s) = rstrip s.
Proof. unfold rstrip. by rewrite rev_involutive, lstrip_idemp. Qed.

Lemma rstrip_has_text s : has_text s -> has_text (rstrip s).
Proof.
  intros Hs. unfold rstrip. apply has_text_rev, lstrip_has_text.
  by apply has_text_rev.
Qed.

Lemma rstrip_cons_text c r : has_text r -> rstrip (c :: r) = c :: rstrip r.
Proof. intros Hr. exact (rstrip_app_text [c] r Hr). Qed.

Lemma rstrip_head c r : isspace c = false -> exists r', rstrip (c :: r) = c :: r'.
Proof.
  intros Hc. destruct (forallb isspace r) eqn:Hr.
  - exists []. pose proof (rstrip_app_space [c] r Hr) as E. simpl in E.
    rewrite E. unfold rstrip. simpl. by rewrite Hc.
  - exists (rstrip r). by apply rstrip_cons_text.
Qed.

Lemma lstrip_rstrip s : lstrip (rstrip s) = rstrip (lstrip s).
Proof.
  destruct (forallb isspace s) eqn:Hs.
  - rewrite (rstrip_all_space s Hs), (lstrip_all_space s Hs). done.
  - destruct (has_text_split s Hs) as (ws & c & r & -> & Hws & Hc).
    rewrite lstrip_app_space by done.
    rewrite rstrip_app_text by (unfold has_text; simpl; by rewrite Hc).
    rewrite lstrip_app_space by done.
    rewrite (lstrip_head c r Hc).
    destruct (rstrip_head c r Hc) as [r' ->]. by apply lstrip_head.
Qed.

Lemma strip_idemp s : strip (strip s) = strip s.
Proof.
  unfold strip. by rewrite lstrip_rstrip, lstrip_idemp, rstrip_idemp.
Qed.

Lemma strip_nil_iff s : strip s = [] <-> forallb isspace s = true.
Proof.
  unfold strip. rewrite rstrip_nil_iff. split.
  - intros E. destruct (forallb isspace s) eqn:Hs; [done|].
    apply lstrip_has_text in Hs. unfold has_text in Hs. congruence.
  - intros Hs. by rewrite (lstrip_all_space s Hs).
Qed.

Lemma strip_blank s : nonempty (strip s) = negb (Spec.blank s).
Proof.
  unfold Spec.blank. destruct (forallb isspace s) eqn:Hs.
  - apply strip_nil_iff in Hs. by rewrite Hs.
  - destruct (strip s) eqn:E; [|done].
    apply strip_nil_iff in E. congruence.
Qed.

Lemma strip_text s : has_text s -> has_text (strip s).
Proof. intros Hs. by apply rstrip_has_text, lstrip_has_text. Qed.

Lemma strip_lstrip s : strip (lstrip s) = strip s.
Proof. unfold strip. by rewrite lstrip_idemp. Qed.

Lemma strip_rstrip s : strip (rstrip s) = strip s.
Proof. unfold strip. by rewrite lstrip_rstrip, rstrip_idemp. Qed.

(** ** [split] *)

Lemma split_not_nil sep s : split sep s <> [].
Proof.
  destruct s as [|c r]; simpl; [done|].
  destruct (c =? sep)%N; [done|]. by destruct (split sep r).
Qed.

Lemma split_no_sep sep s : sep ∉ s -> split sep s = [s].
Proof.
  induction s as [|c r IH]; simpl; [done|].
  intros Hn. apply not_elem_of_cons in Hn as [Hc Hr].
  destruct (N.eqb_spec c sep) as [->|_]; [done|]. by rewrite IH.
Qed.

Lemma split_app sep a b : split sep (a ++ sep :: b) = split sep a ++ split sep b.
Proof.
  induction a as [|c r IH]; simpl.
  - by rewrite N.eqb_refl.
  - destruct (c =? sep)%N; [by rewrite IH|].
    rewrite IH. pose proof (split_not_nil sep r).
    by destruct (split sep r).
Qed.

(** ** The backtracking matchers *)

Section RegexFacts.
Context {R : Type}.
Implicit Types (k : str -> str -> option R) (p : char -> bool).

(** The greedy choice is taken whenever the continuation accepts it. *)
Lemma re_star_greedy p k s x :
  k (span p s) (skip p s) = Some x -> re_star p k s = Some x.
Proof.
  revert k. induction s as [|c r IH]; intros k; simpl; [done|].
  destruct (p c); [|done].
  intros Hk. by rewrite (IH (fun m => k (c :: m)) Hk).
Qed.

(** Backtracking finds nothing when no split of the input is accepted. *)
Lemma re_star_none p k s :
  (forall m r, s = m ++ r -> forallb p m = true -> k m r = None) ->
  re_star p k s = None.
Proof.
  revert k. induction s as [|c r IH]; intros k Hk; simpl.
  - by apply Hk.
  - destruct (p c) eqn:Hc; [|by apply Hk].
    rewrite IH; [by apply Hk|].
    intros m r' -> Hm. apply Hk; [done|]. simpl. by rewrite Hc.
Qed.

(** A match comes from some split of the input. *)
Lemma re_star_some p k s x :
  re_star p k s = Some x ->
  exists m r, s = m ++ r /\ forallb p m = true /\ k m r = Some x.
Proof.
  revert k. induction s as [|c r IH]; intros k; simpl.
  - intros Hk. by exists [], [].
  - destruct (p c) eqn:Hc; [|intros Hk; by exists [], (c :: r)].
    destruct (re_star p (fun m => k (c :: m)) r) eqn:E.
    + intros [= ->]. destruct (IH _ E) as (m & r' & -> & Hm & Hk).
      exists (c :: m), r'. simpl. by rewrite Hc.
    + intros Hk. by exists [], (c :: r).
Qed.
End RegexFacts.

(** ** The title pattern *)

Lemma isspace_newline : isspace newline = true.
Proof. reflexivity. Qed.

Lemma re_dot_text c : isspace c = false -> re_dot c = true.
Proof.
  unfold re_dot. destruct (N.eqb_spec c newline) as [->|]; [|done].
  by rewrite isspace_newline.
Qed.

Lemma span_re_dot s : newline ∉ s -> span re_dot s = s.
Proof.
  induction s as [|c r IH]; simpl; [done|].
  intros [Hc Hr]%not_elem_of_cons. unfold re_dot at 1.
  destruct (N.eqb_spec c newline); [done|]. simpl. by rewrite IH.
Qed.

Lemma numeral_glyph_hui : numeral_glyph hui = false.
Proof. vm_compute. reflexivity. Qed.

Lemma numeral_glyph_not_space c : numeral_glyph c = true -> isspace c = false.
Proof.
  unfold numeral_glyph. intros (x & Hin & ->%N.eqb_eq)%existsb_exists.
  vm_compute in Hin. by repeat (destruct Hin as [<-|Hin]; [by vm_compute|]).
Qed.

Lemma forallb_cons_true {A} (p : A -> bool) c r :
  forallb p (c :: r) = true -> p c = true /\ forallb p r = true.
Proof. simpl. apply andb_true_iff. Qed.

Lemma re_lit_eq {R} c (k : str -> option R) r : re_lit c k (c :: r) = k r.
Proof. unfold re_lit. by rewrite N.eqb_refl. Qed.

Lemma re_plus_cons {R} p (k : str -> str -> option R) c r :
  p c = true -> re_plus p k (c :: r) = re_star p (fun m => k (c :: m)) r.
Proof. unfold re_plus. by intros ->. Qed.

(** A matching title: the numeral, [回], optional white space and text. *)
Lemma title_re_match n nums ws c rest :
  forallb numeral_glyph (n :: nums) = true ->
  forallb isspace ws = true ->
  isspace c = false ->
  title_re (di :: (n :: nums) ++ hui :: ws ++ c :: rest)
  = Some (n :: nums, c :: span re_dot rest).
Proof.
  intros Hnums Hws Hc. apply forallb_cons_true in Hnums as [Hn Hnums].
  unfold title_re. rewrite re_lit_eq. cbn [app].
  rewrite (re_plus_cons _ _ _ _ Hn). apply re_star_greedy.
  destruct (span_app_stop numeral_glyph nums hui (ws ++ c :: rest) Hnums
              numeral_glyph_hui) as [-> ->].
  rewrite re_lit_eq. apply re_star_greedy.
  destruct (span_app_stop isspace ws c rest Hws Hc) as [_ ->].
  rewrite (re_plus_cons _ _ _ _ (re_dot_text c Hc)). by apply re_star_greedy.
Qed.

Lemma re_plus_some {R} p (k : str -> str -> option R) s x :
  re_plus p k s = Some x ->
  exists m r, s = m ++ r /\ m <> [] /\ forallb p m = true /\ k m r = Some x.
Proof.
  destruct s as [|c s]; simpl; [done|]. destruct (p c) eqn:Hc; [|done].
  intros (m & r & -> & Hm & Hk)%re_star_some.
  exists (c :: m), r. simpl. by rewrite Hc, Hm.
Qed.

(** Whatever [title_re] returns is a match of the pattern: the string is
    [第], the first group (numeral glyphs, at least one), [回], white
    space, the second group (at least one character, no newline), and a
    rest. *)
Lemma title_re_sound s g1 g2 :
  title_re s = Some (g1, g2) ->
  exists ws rest,
    s = di :: g1 ++ hui :: ws ++ g2 ++ rest
    /\ g1 <> [] /\ forallb numeral_glyph g1 = true
    /\ forallb isspace ws = true
    /\ g2 <> [] /\ forallb re_dot g2 = true.
Proof.
  unfold title_re, re_lit at 1. destruct s as [|c s]; [done|].
  destruct (N.eqb_spec c di) as [->|]; [|done].
  intros (m1 & r1 & -> & Hne1 & Hm1 & Hk1)%re_plus_some.
  unfold re_lit in Hk1. destruct r1 as [|h r1]; [done|].
  destruct (N.eqb_spec h hui) as [->|]; [|done].
  apply re_star_some in Hk1 as (ws & r2 & -> & Hws & Hk2).
  apply re_plus_some in Hk2 as (m2 & rest & -> & Hne2 & Hm2 & [= <- <-]).
  by exists ws, rest.
Qed.

(** A title that ends with [回] does not match: [(.+)] needs a character. *)
Lemma title_re_bare nums :
  forallb numeral_glyph nums = true -> title_re (di :: nums ++ [hui]) = None.
Proof.
  intros Hnums. unfold title_re. rewrite re_lit_eq.
  destruct nums as [|n nums].
  { cbn [app]. unfold re_plus. by rewrite numeral_glyph_hui. }
  apply forallb_cons_true in Hnums as [Hn Hnums].
  cbn [app]. rewrite (re_plus_cons _ _ _ _ Hn).
  apply re_star_none. intros m r E Hm.
  destruct r as [|h r]; [done|].
  unfold re_lit. destruct (N.eqb_spec h hui) as [->|]; [|done].
  assert (r = []) as ->.
  { destruct r as [|x r] using rev_ind; [done|]. clear IHr.
    change (hui :: r ++ [x]) with ([hui] ++ r ++ [x]) in E.
    rewrite !app_assoc in E. apply app_inj_tail in E as [-> _].
    rewrite !forallb_app in Hnums.
    apply andb_true_iff in Hnums as [[_ Hh]%andb_true_iff _].
    apply forallb_cons_true in Hh as [Hh _].
    by rewrite numeral_glyph_hui in Hh. }
  reflexivity.
Qed.

Lemma rstrip_prefix s : exists t, s = rstrip s ++ t /\ forallb isspace t = true.
Proof.
  induction s as [|c s IH] using rev_ind.
  - by exists [].
  - destruct (isspace c) eqn:Hc.
    + destruct IH as (t & Hs & Ht). exists (t ++ [c]).
      rewrite rstrip_app_space by (simpl; by rewrite Hc).
      split; [by rewrite app_assoc, <- Hs|].
      rewrite forallb_app. simpl. by rewrite Ht, Hc.
    + exists []. rewrite rstrip_app_text by (unfold has_text; simpl; by rewrite Hc).
      unfold rstrip at 1. simpl. rewrite Hc. simpl. by rewrite app_nil_r.
Qed.

Lemma lstrip_suffix s : exists h, s = h ++ lstrip s /\ forallb isspace h = true.
Proof.
  induction s as [|c s IH]; simpl.
  - by exists [].
  - destruct (isspace c) eqn:Hc.
    + destruct IH as (h & Hs & Hh). exists (c :: h). simpl.
      by rewrite Hc, Hh, <- Hs.
    + by exists [].
Qed.

(** ** [parse_chapter_title] *)

Lemma parse_chapter_title_strip s :
  parse_chapter_title (strip s) = parse_chapter_title s.
Proof. unfold parse_chapter_title. by rewrite strip_idemp. Qed.

Lemma parse_chapter_title_no_match line :
  title_re (strip line) = None -> parse_chapter_title line = (0, strip line).
Proof. unfold parse_chapter_title. by intros ->. Qed.

(** A line made of [第], a numeral, [回], optional white space and a text
    without newline: the numeral is converted, the text is trimmed. *)
Lemma parse_chapter_title_marker n nums sp X :
  forallb numeral_glyph (n :: nums) = true ->
  forallb isspace sp = true ->
  has_text X -> newline ∉ X ->
  parse_chapter_title (di :: (n :: nums) ++ hui :: sp ++ X)
  = (chinese_to_arabic (n :: nums), strip X).
Proof.
  intros Hnums Hsp HX Hnl.
  assert (isspace di = false) as Hdi by (by vm_compute).
  assert (strip (di :: (n :: nums) ++ hui :: sp ++ X)
          = di :: (n :: nums) ++ hui :: sp ++ rstrip X) as Hstrip.
  { unfold strip. rewrite (lstrip_head _ _ Hdi).
    change (di :: (n :: nums) ++ hui :: sp ++ X)
      with ((di :: (n :: nums)) ++ [hui] ++ sp ++ X).
    rewrite !app_assoc. rewrite rstrip_app_text by done.
    by rewrite <- !app_assoc. }
  destruct (has_text_split _ (rstrip_has_text X HX)) as (ws & c & r & E & Hws & Hc).
  assert (lstrip (rstrip X) = c :: r) as Hl.
  { rewrite E, lstrip_app_space by done. by apply lstrip_head. }
  assert (newline ∉ r) as Hr.
  { destruct (rstrip_prefix X) as (t & EX & _). rewrite EX, E in Hnl.
    intros Hin. apply Hnl. rewrite elem_of_app. left.
    rewrite elem_of_app. right. by right. }
  unfold parse_chapter_title. rewrite Hstrip, E, app_assoc.
  rewrite title_re_match; [|done|by rewrite forallb_app, Hsp, Hws|done].
  rewrite (span_re_dot r Hr), <- Hl.
  by rewrite strip_lstrip, strip_rstrip.
Qed.

(** ** [parse_txt_file] *)

Section ScriptFacts.
Context `{UnicodeData}.

Lemma parse_txt_file_eq f :
  parse_txt_file f =
  (let '(chapter_num, title_text) := parse_chapter_title (title_line f) in
   n ← (if chapter_num =? 0 then py_int (stem f) else Return chapter_num);
   Return {| id := n; title := title_line f; titleText := title_text;
             paragraphs := parse_paragraphs (body_lines f) |}).
Proof. reflexivity. Qed.

Lemma parse_txt_file_numbered f n tt :
  parse_chapter_title (title_line f) = (n, tt) -> n <> 0 ->
  parse_txt_file f =
  Return {| id := n; title := title_line f; titleText := tt;
            paragraphs := parse_paragraphs (body_lines f) |}.
Proof.
  intros E Hn. rewrite parse_txt_file_eq, E.
  destruct (Z.eqb_spec n 0); [done|]. reflexivity.
Qed.

Lemma parse_txt_file_fallback f tt :
  parse_chapter_title (title_line f) = (0, tt) ->
  parse_txt_file f =
  (n ← py_int (stem f);
   Return {| id := n; title := title_line f; titleText := tt;
             paragraphs := parse_paragraphs (body_lines f) |}).
Proof. intros E. by rewrite parse_txt_file_eq, E. Qed.

Lemma title_line_strip f : strip (title_line f) = title_line f.
Proof. apply strip_idemp. Qed.

End ScriptFacts.

(** ** Titles with a chapter marker *)

Lemma marker_yi X :
  has_text X -> newline ∉ X ->
  parse_chapter_title (u "第一回 " ++ X) = (1, strip X).
Proof.
  literal (u "第一回 ").
  by_marker (parse_chapter_title_marker 0x4E00%N [] [32%N] X
               ltac:(vm_compute; reflexivity) eq_refl).
Qed.

Lemma marker_ershiyi X :
  has_text X -> newline ∉ X ->
  parse_chapter_title (u "第二十一回 " ++ X) = (21, strip X).
Proof.
  literal (u "第二十一回 ").
  by_marker (parse_chapter_title_marker 0x4E8C%N [0x5341; 0x4E00]%N [32%N] X
               ltac:(vm_compute; reflexivity) eq_refl).
Qed.

Lemma marker_shi X :
  has_text X -> newline ∉ X ->
  parse_chapter_title (u "第十回 " ++ X) = (10, strip X).
Proof.
  literal (u "第十回 ").
  by_marker (parse_chapter_title_marker 0x5341%N [] [32%N] X
               ltac:(vm_compute; reflexivity) eq_refl).
Qed.

Section TitleClaims.
Context `{UnicodeData}.

(** C6 (as amended).  For every title suffix [X] that contains a character
    other than white space and no newline: the title line [第一回 X] yields
    id 1, [第二十一回 X] yields id 21 and [第十回 X] yields id 10, whatever the
    file is called, and [titleText] is [X] with its surrounding white space
    removed ([X] itself when it has none). *)
Theorem marker_title_ids (X : str) (f : TxtFile) :
  has_text X -> newline ∉ X ->
  (parse_chapter_title (u "第一回 " ++ X) = (1, strip X)
   /\ parse_chapter_title (u "第二十一回 " ++ X) = (21, strip X)
   /\ parse_chapter_title (u "第十回 " ++ X) = (10, strip X))
  /\ (lstrip X = X -> rstrip X = X -> strip X = X)
  /\ (forall marker n,
        (marker, n) ∈ [(u "第一回 ", 1); (u "第二十一回 ", 21); (u "第十回 ", 10)] ->
        title_line f = strip (marker ++ X) ->
        parse_txt_file f =
        Return {| id := n; title := title_line f; titleText := strip X;
                  paragraphs := parse_paragraphs (body_lines f) |}).
Proof.
  intros HX Hnl.
  pose proof (marker_yi X HX Hnl) as H1.
  pose proof (marker_ershiyi X HX Hnl) as H21.
  pose proof (marker_shi X HX Hnl) as H10.
  split; [done|]. split; [unfold strip; by intros -> ->|].
  intros marker n Hin Ht.
  apply parse_txt_file_numbered.
  - rewrite Ht, parse_chapter_title_strip.
    repeat (apply elem_of_cons in Hin as [[= -> ->]|Hin]; [done|]).
    by apply elem_of_nil in Hin.
  - repeat (apply elem_of_cons in Hin as [[= -> ->]|Hin]; [done|]).
    by apply elem_of_nil in Hin.
Qed.

(** C7.  A file whose base name is [5] and whose trimmed first line does
    not match the title pattern gets id 5, and both [title] and
    [titleText] are the trimmed first line. *)
Theorem filename_fallback (f : TxtFile) :
  stem f = u "5" ->
  title_re (title_line f) = None ->
  parse_txt_file f =
  Return {| id := 5; title := title_line f; titleText := title_line f;
            paragraphs := parse_paragraphs (body_lines f) |}.
Proof.
  intros Hstem Hre.
  rewrite (parse_txt_file_fallback f (title_line f)).
  - rewrite Hstem. reflexivity.
  - rewrite parse_chapter_title_no_match; rewrite title_line_strip; done.
Qed.

(** C9.  When the trimmed first line is [第], one or more numeral glyphs
    and [回] with nothing after it, the pattern does not match: the
    candidate id is 0, so the id is taken from the file name, and
    [titleText] is the whole trimmed line, marker included. *)
Theorem bare_marker_not_matched (nums line : str) (f : TxtFile) :
  nums <> [] ->
  forallb numeral_glyph nums = true ->
  (strip line = di :: nums ++ [hui] ->
   title_re (strip line) = None /\ parse_chapter_title line = (0, strip line))
  /\ (title_line f = di :: nums ++ [hui] ->
      parse_txt_file f =
      (n ← py_int (stem f);
       Return {| id := n; title := title_line f; titleText := title_line f;
                 paragraphs := parse_paragraphs (body_lines f) |})).
Proof.
  intros _ Hnums. split.
  - intros E. assert (title_re (strip line) = None) as Hre.
    { rewrite E. by apply title_re_bare. }
    split; [done|]. by apply parse_chapter_title_no_match.
  - intros E. apply parse_txt_file_fallback.
    rewrite parse_chapter_title_no_match; rewrite title_line_strip; [done|].
    rewrite E. by apply title_re_bare.
Qed.

End TitleClaims.

Lemma marker_title_ids_witness :
  let X := u "甄士隱夢幻識通靈 賈雨村風塵懷閨秀" in
  let f := {| name := u "9.txt";
              text := u "第一回 " ++ X ++ [newline] ++ u "此開卷第一回也。" |} in
  has_text X /\ (newline ∉ X)
  /\ parse_chapter_title (u "第一回 " ++ X) = (1, X)
  /\ @parse_txt_file latin1 f =
     Return {| id := 1; title := u "第一回 " ++ X; titleText := X;
               paragraphs := [ {| content := [u "此開卷第一回也。"] |} ] |}.
Proof.
  intros X f.
  assert (has_text X) as HX by (vm_compute; reflexivity).
  assert (newline ∉ X) as Hnl by by_decide.
  destruct (@marker_title_ids latin1 X f HX Hnl) as ((H1 & _ & _) & _ & Hf).
  split; [done|]. split; [done|]. split.
  - rewrite H1. vm_compute. reflexivity.
  - rewrite (Hf (u "第一回 ") 1 ltac:(by_decide) ltac:(vm_compute; reflexivity)).
    vm_compute. reflexivity.
Defined.

(** C6 as stated fails when the suffix is empty (the pattern needs some
    text after [回], so the id comes from the file name) and when it
    carries white space of its own (which [titleText] loses). *)
Lemma marker_title_ids_counterexample :
  parse_chapter_title (u "第一回 " ++ u "") = (0, u "第一回")
  /\ @parse_txt_file latin1 {| name := u "7.txt"; text := u "第一回 " ++ u "" |}
     = Return {| id := 7; title := u "第一回"; titleText := u "第一回";
                 paragraphs := [] |}
  /\ parse_chapter_title (u "第一回 " ++ u " 甲") = (1, u "甲").
Proof. vm_compute. auto. Qed.

Lemma filename_fallback_witness :
  let f := {| name := u "5.txt"; text := u "Some preface" |} in
  stem f = u "5" /\ title_re (title_line f) = None
  /\ @parse_txt_file latin1 f =
     Return {| id := 5; title := u "Some preface"; titleText := u "Some preface";
               paragraphs := [] |}.
Proof.
  intros f.
  assert (stem f = u "5") as Hs by (vm_compute; reflexivity).
  assert (title_re (title_line f) = None) as Hre by (vm_compute; reflexivity).
  split; [done|]. split; [done|].
  rewrite (@filename_fallback latin1 f Hs Hre). vm_compute. reflexivity.
Defined.

Lemma bare_marker_not_matched_witness :
  let nums := u "一" in
  let f := {| name := u "3.txt"; text := u "第一回" ++ [newline] ++ u "甲" |} in
  nums <> [] /\ forallb numeral_glyph nums = true
  /\ title_line f = di :: nums ++ [hui]
  /\ parse_chapter_title (u "第一回") = (0, u "第一回")
  /\ @parse_txt_file latin1 f =
     Return {| id := 3; title := u "第一回"; titleText := u "第一回";
               paragraphs := [ {| content := [u "甲"] |} ] |}.
Proof.
  intros nums f.
  assert (nums <> []) as Hne by (vm_compute; discriminate).
  assert (forallb numeral_glyph nums = true) as Hn by (vm_compute; reflexivity).
  assert (title_line f = di :: nums ++ [hui]) as Ht by (vm_compute; reflexivity).
  destruct (@bare_marker_not_matched latin1 nums (u "第一回") f Hne Hn) as [Hl Hf].
  split; [done|]. split; [done|]. split; [done|]. split.
  - destruct Hl as [_ ->]; vm_compute; reflexivity.
  - rewrite (Hf Ht). vm_compute. reflexivity.
Defined.

(** C3.  [一百八] is not in the table and starts neither with [二十] nor with
    [十], so its glyph values are summed: 1 + 100 + 8 = 109, not 108. *)
Theorem yibaiba_is_109 :
  chinese_nums !! u "一百八" = None
  /\ startswith (u "一百八") (u "二十") = false
  /\ startswith (u "一百八") (u "十") = false
  /\ map (fun c => chinese_nums !! [c]) (u "一百八") = [Some 1; Some 100; Some 8]
  /\ chinese_to_arabic (u "一百八") = 1 + 100 + 8
  /\ chinese_to_arabic (u "一百八") <> 108
  /\ parse_chapter_title (u "第一百八回 甲") = (109, u "甲").
Proof.
  assert (chinese_to_arabic (u "一百八") = 109) as E by (vm_compute; reflexivity).
  repeat split; try (vm_compute; reflexivity). by rewrite E.
Qed.

(** ** The numeral conversion against the specification *)

Lemma list_to_map_assoc (l : list (str * Z)) (s : str) :
  (list_to_map l : gmap str Z) !! s = Spec.assoc s l.
Proof.
  induction l as [|[k v] l IH]; simpl; [done|].
  destruct (decide (k = s)) as [->|Hne].
  - by rewrite lookup_insert_eq.
  - by rewrite lookup_insert_ne.
Qed.

Lemma chinese_nums_table : chinese_nums = list_to_map Spec.table.
Proof.
  unfold chinese_nums. apply (f_equal list_to_map). vm_compute. reflexivity.
Qed.

Lemma chinese_nums_lookup s : chinese_nums !! s = Spec.lookup s.
Proof. rewrite chinese_nums_table. apply list_to_map_assoc. Qed.

Lemma chinese_nums_get s : default 0 (chinese_nums !! s) = Spec.value s.
Proof. unfold Spec.value. rewrite chinese_nums_lookup. by destruct (Spec.lookup s). Qed.

Lemma startswith_spec s p : startswith s p = true <-> Spec.starts_with p s.
Proof.
  unfold Spec.starts_with. revert s. induction p as [|a p IH]; intros s; simpl.
  - split; [|by destruct s]. intros _. by exists s.
  - destruct s as [|b s].
    + split; [done|]. by intros [rest [=]].
    + cbn [startswith]. rewrite andb_true_iff, N.eqb_eq, IH. split.
      * intros [-> [rest ->]]. by exists rest.
      * intros [rest [= -> ->]]. split; [done|]. by exists rest.
Qed.

Lemma startswith_decide s p :
  startswith s p = bool_decide (Spec.starts_with p s).
Proof.
  destruct (startswith s p) eqn:E.
  - symmetry. by apply bool_decide_eq_true, startswith_spec.
  - symmetry. apply bool_decide_eq_false. intros Hp%startswith_spec. congruence.
Qed.

Lemma glyph_sum s acc :
  fold_left
    (fun chapter_num c =>
       match chinese_nums !! [c] with
       | Some v => chapter_num + v
       | None => chapter_num
       end) s acc
  = acc + foldr Z.add 0 (map (fun c => Spec.value [c]) s).
Proof.
  revert acc. induction s as [|c s IH]; intros acc; cbn [fold_left map foldr].
  - lia.
  - rewrite IH, chinese_nums_lookup. unfold Spec.value at 2.
    destruct (Spec.lookup [c]); lia.
Qed.

(** The table holds exactly the numerals of 1 to 25, hundred and zero. *)
Lemma table_entries s v :
  Spec.lookup s = Some v <->
  (1 <= v <= 25 /\ s = Spec.numeral v) \/ (s = u "百" /\ v = 100)
  \/ (s = u "零" /\ v = 0).
Proof.
  split.
  - unfold Spec.lookup.
    assert (Forall (fun kv => (1 <= kv.2 <= 25 /\ kv.1 = Spec.numeral kv.2)
                              \/ (kv.1 = u "百" /\ kv.2 = 100)
                              \/ (kv.1 = u "零" /\ kv.2 = 0)) Spec.table) as Hall.
    { unfold Spec.table. apply Forall_app. split.
      - apply Forall_fmap, Forall_forall. intros n Hn. left. simpl.
        apply elem_of_seqZ in Hn. split; [lia|done].
      - constructor; [right; left; done|].
        constructor; [right; right; done|]. constructor. }
    induction Hall as [|[k w] l Hkw _ IH]; simpl; [done|].
    destruct (decide (k = s)) as [->|_]; [|done]. by intros [= ->].
  - intros [[Hv ->]|[[-> ->]|[-> ->]]]; [|by vm_compute..].
    assert (v ∈ seqZ 1 25) as Hin by (apply elem_of_seqZ; lia).
    clear Hv. vm_compute in Hin.
    repeat (apply elem_of_cons in Hin as [->|Hin]; [by vm_compute|]).
    by apply elem_of_nil in Hin.
Qed.

Lemma chinese_to_arabic_spec s : chinese_to_arabic s = Spec.numeral_parser s.
Proof.
  unfold chinese_to_arabic, Spec.numeral_parser.
  rewrite chinese_nums_lookup. destruct (Spec.lookup s) as [v|]; [done|].
  rewrite !startswith_decide, !chinese_nums_get, glyph_sum.
  destruct (decide (Spec.starts_with (u "二十") s)) as [H20|H20].
  - rewrite (bool_decide_eq_true_2 _ H20).
    destruct (decide (length s = 2%nat)) as [->|Hl]; [done|].
    by apply Nat.eqb_neq in Hl as ->.
  - rewrite (bool_decide_eq_false_2 _ H20).
    destruct (decide (Spec.starts_with (u "十") s)) as [H10|H10].
    + rewrite (bool_decide_eq_true_2 _ H10).
      destruct (decide (length s = 1%nat)) as [->|Hl]; [done|].
      by apply Nat.eqb_neq in Hl as ->.
    + rewrite (bool_decide_eq_false_2 _ H10). lia.
Qed.

(** C1.  For every string the conversion in [parse_chapter_title] is the
    Numeral Parser of the specification: exact lookup in the table of 1 to
    25, hundred and zero; else 20 plus the table value of the rest after
    [二十] (20 alone at length 2); else 10 plus the table value of the rest
    after [十] (10 alone at length 1); else the sum of the table values of
    the glyphs, a glyph outside the table counting 0. *)
Theorem numeral_parser_refines :
  (forall s v,
     chinese_nums !! s = Some v <->
     (1 <= v <= 25 /\ s = Spec.numeral v) \/ (s = u "百" /\ v = 100)
     \/ (s = u "零" /\ v = 0))
  /\ (forall s, chinese_to_arabic s = Spec.numeral_parser s)
  /\ (forall line,
        parse_chapter_title line =
        match title_re (strip line) with
        | Some (g1, g2) => (Spec.numeral_parser g1, strip g2)
        | None => (0, strip line)
        end).
Proof.
  split; [|split; [apply chinese_to_arabic_spec|]].
  - intros s v. rewrite chinese_nums_lookup. apply table_entries.
  - intros line. unfold parse_chapter_title.
    destruct (title_re (strip line)) as [[g1 g2]|]; [|done].
    by rewrite chinese_to_arabic_spec.
Qed.

(** ** Paragraph segmentation *)

Lemma groups_not_nil lines : Spec.groups lines <> [].
Proof.
  destruct lines as [|l rest]; simpl; [done|].
  destruct (Spec.blank l); [done|]. by destruct (Spec.groups rest).
Qed.

Lemma pending_nil gs : gs <> [] -> pending [] gs = map (map strip) gs.
Proof. by destruct gs. Qed.

Lemma emit_cons g gs :
  emit (g :: gs) = (if nonempty g then [paragraph_of g] else []) ++ emit gs.
Proof.
  unfold emit. rewrite filter_cons.
  destruct (decide (g <> [])) as [Hg|Hg]; destruct g; try done.
  by destruct Hg.
Qed.

Lemma paragraph_loop lines paragraphs current :
  flush (fold_left paragraph_step lines (paragraphs, current))
  = paragraphs ++ emit (pending current (Spec.groups lines)).
Proof.
  revert paragraphs current.
  induction lines as [|l rest IH]; intros paragraphs current.
  - cbn [fold_left Spec.groups pending map]. rewrite app_nil_r, emit_cons.
    unfold flush, emit. cbn [fst snd]. rewrite filter_nil.
    destruct (nonempty current); [done|]. by rewrite app_nil_r.
  - cbn [fold_left Spec.groups]. unfold paragraph_step at 2.
    rewrite strip_blank. destruct (Spec.blank l) eqn:Hl; cbn [negb].
    + cbn [pending map]. rewrite app_nil_r, emit_cons.
      rewrite <- (pending_nil _ (groups_not_nil rest)).
      destruct (nonempty current) eqn:Hc.
      * rewrite IH. by rewrite <- app_assoc.
      * destruct current; [|done]. by rewrite IH.
    + rewrite IH. pose proof (groups_not_nil rest) as Hg.
      destruct (Spec.groups rest) as [|g gs]; [done|].
      cbn [pending map]. by rewrite <- app_assoc.
Qed.

Lemma filter_map_strip (gs : list (list str)) :
  filter (fun g => g <> []) (map (map strip) gs)
  = map (map strip) (filter (fun g => g <> []) gs).
Proof.
  induction gs as [|g gs IH]; [done|].
  cbn [map]. rewrite !filter_cons, IH.
  destruct (decide (g <> [])) as [Hg|Hg]; destruct g; try done.
  by destruct Hg.
Qed.

Lemma parse_paragraphs_spec lines :
  parse_paragraphs lines = Spec.paragraphs_of lines.
Proof.
  assert (parse_paragraphs lines
          = flush (fold_left paragraph_step lines ([], []))) as ->.
  { unfold parse_paragraphs, flush.
    by destruct (fold_left paragraph_step lines ([], [])) as [ps cur]. }
  rewrite paragraph_loop. cbn [app].
  rewrite (pending_nil _ (groups_not_nil lines)).
  unfold emit, Spec.paragraphs_of, Spec.runs.
  rewrite filter_map_strip, map_map. done.
Qed.

(** The groups hold the non-blank lines, in order. *)
Lemma groups_lines lines :
  Forall (Forall (fun l => Spec.blank l = false)) (Spec.groups lines)
  /\ concat (Spec.groups lines) = filter (fun l => Spec.blank l = false) lines.
Proof.
  induction lines as [|l rest [IH1 IH2]]; simpl.
  - split; [by repeat constructor|done].
  - rewrite filter_cons. destruct (Spec.blank l) eqn:Hl.
    + destruct (decide _) as [?|_]; [done|].
      split; [by constructor|done].
    + destruct (decide _) as [_|?]; [|done].
      pose proof (groups_not_nil rest) as Hg.
      destruct (Spec.groups rest) as [|g gs]; [done|].
      apply Forall_cons in IH1 as [Hg1 Hgs]. simpl in *.
      split; [by repeat constructor|by rewrite IH2].
Qed.

Lemma runs_lines lines :
  Forall (Forall (fun l => Spec.blank l = false)) (Spec.runs lines)
  /\ concat (Spec.runs lines) = filter (fun l => Spec.blank l = false) lines.
Proof.
  destruct (groups_lines lines) as [Hall Hcat]. unfold Spec.runs. split.
  - apply Forall_forall. intros g [_ Hg]%list_elem_of_filter.
    by apply (proj1 (Forall_forall _ _) Hall).
  - rewrite <- Hcat. clear. induction (Spec.groups lines) as [|g gs IH]; [done|].
    rewrite filter_cons. destruct (decide (g <> [])) as [_|Hg]; simpl.
    + by rewrite IH.
    + destruct g; [by rewrite IH|by destruct Hg].
Qed.

Lemma groups_no_blank run :
  Forall (fun l => Spec.blank l = false) run -> Spec.groups run = [run].
Proof.
  induction 1 as [|l run Hl _ IH]; simpl; [done|]. by rewrite Hl, IH.
Qed.

Lemma groups_app lines1 l lines2 :
  Spec.blank l = true ->
  Spec.groups (lines1 ++ l :: lines2) = Spec.groups lines1 ++ Spec.groups lines2.
Proof.
  intros Hl. induction lines1 as [|x lines1 IH]; simpl.
  - by rewrite Hl.
  - destruct (Spec.blank x); [by rewrite IH|].
    rewrite IH. pose proof (groups_not_nil lines1).
    by destruct (Spec.groups lines1).
Qed.

(** The first group is the longest prefix without blank line; the other
    groups are those of the lines after the blank line that ends it. *)
Lemma groups_head lines g gs :
  Spec.groups lines = g :: gs ->
  Forall (fun l => Spec.blank l = false) g
  /\ ((lines = g /\ gs = [])
      \/ exists l rest,
           Spec.blank l = true /\ lines = g ++ l :: rest /\ gs = Spec.groups rest).
Proof.
  revert g gs. induction lines as [|x lines IH]; intros g gs; simpl.
  - intros [= <- <-]. split; [done|by left].
  - destruct (Spec.blank x) eqn:Hx.
    + intros [= <- <-]. split; [done|]. right. by exists x, lines.
    + pose proof (groups_not_nil lines) as Hne.
      destruct (Spec.groups lines) as [|g0 gs0]; [done|].
      intros [= <- <-]. destruct (IH g0 gs0 eq_refl) as [Hg0 Hrest].
      split; [by constructor|].
      destruct Hrest as [[-> ->]|(l & rest & Hl & -> & ->)]; [by left|].
      right. by exists l, rest.
Qed.

Lemma groups_decompose lines g :
  g ∈ Spec.groups lines ->
  Forall (fun l => Spec.blank l = false) g
  /\ exists before after,
       lines = before ++ g ++ after
       /\ (before = [] \/ exists b l, before = b ++ [l] /\ Spec.blank l = true)
       /\ (after = [] \/ exists l a, after = l :: a /\ Spec.blank l = true).
Proof.
  remember (length lines) as n eqn:Hn. revert lines Hn g.
  induction n as [n IH] using lt_wf_ind. intros lines -> g Hg.
  destruct (Spec.groups lines) as [|g0 gs] eqn:E; [by apply elem_of_nil in Hg|].
  destruct (groups_head lines g0 gs E) as [Hg0 Hrest].
  apply elem_of_cons in Hg as [->|Hg].
  - split; [done|]. exists [].
    destruct Hrest as [[-> ->]|(l & rest & Hl & -> & ->)].
    + exists []. rewrite app_nil_r. split; [done|]. split; by left.
    + exists (l :: rest). split; [done|]. split; [by left|]. right. by exists l, rest.
  - destruct Hrest as [[-> ->]|(l & rest & Hl & -> & ->)];
      [by apply elem_of_nil in Hg|].
    destruct (IH (length rest)) with (lines := rest) (g := g)
      as (Hall & before & after & -> & Hb & Ha); [|done|done|].
    { rewrite length_app. simpl. lia. }
    split; [done|]. exists (g0 ++ l :: before), after.
    split; [by rewrite <- !app_assoc|]. split; [|done]. right.
    destruct Hb as [->|(b & l' & -> & Hl')].
    + by exists g0, l.
    + exists (g0 ++ l :: b), l'. split; [|done]. by rewrite <- !app_assoc.
Qed.

(** [Spec.runs] lists the maximal runs, and nothing else. *)
Lemma runs_maximal lines run :
  run ∈ Spec.runs lines <-> Spec.maximal_run lines run.
Proof.
  unfold Spec.runs, Spec.maximal_run. rewrite list_elem_of_filter. split.
  - intros [Hne Hin]. split; [done|]. by apply groups_decompose.
  - intros (Hne & Hall & before & after & -> & Hb & Ha). split; [done|].
    assert (run ∈ Spec.groups (run ++ after)) as Hrun.
    { destruct Ha as [->|(l & a & -> & Hl)].
      - rewrite app_nil_r, groups_no_blank by done. by left.
      - rewrite groups_app, groups_no_blank by done. by left. }
    destruct Hb as [->|(b & l & -> & Hl)]; [done|].
    rewrite <- app_assoc. cbn [app]. rewrite groups_app by done.
    apply elem_of_app. by right.
Qed.

Lemma run_text run :
  run <> [] -> Forall (fun l => Spec.blank l = false) run ->
  concat (map strip run) <> [].
Proof.
  destruct run as [|l run]; [done|]. intros _ [Hl _]%Forall_cons.
  simpl. destruct (strip l) eqn:E; [|done].
  apply strip_nil_iff in E. unfold Spec.blank in Hl. congruence.
Qed.

Lemma paragraphs_not_empty lines :
  Forall (fun p => exists s, content p = [s] /\ s <> []) (parse_paragraphs lines).
Proof.
  rewrite parse_paragraphs_spec. unfold Spec.paragraphs_of, Spec.runs.
  apply Forall_fmap, Forall_forall. intros run [Hne Hin]%list_elem_of_filter.
  exists (concat (map strip run)). split; [done|].
  apply run_text; [done|].
  destruct (groups_lines lines) as [Hall _].
  by apply (proj1 (Forall_forall _ _) Hall).
Qed.

Section SegmentationClaim.
Context `{UnicodeData}.

(** C2.  The lines after the title are cut into the maximal runs of
    consecutive non-blank lines, each run becomes one Paragraph whose
    content is the single string of its stripped lines concatenated without
    separator (the last run included), blank lines produce nothing, and no
    Paragraph is empty. *)
Theorem paragraph_segmentation :
  (forall lines, parse_paragraphs lines = Spec.paragraphs_of lines)
  /\ (forall lines,
        (forall run, run ∈ Spec.runs lines <-> Spec.maximal_run lines run)
        /\ concat (Spec.runs lines) = filter (fun l => Spec.blank l = false) lines)
  /\ (forall lines,
        Forall (fun p => exists s, content p = [s] /\ s <> [])
               (parse_paragraphs lines))
  /\ (forall f,
        match parse_txt_file f with
        | Return c => paragraphs c = Spec.paragraphs_of (body_lines f)
        | Raise _ => True
        end)
  /\ parse_paragraphs [u ""; u "A"; u "B"; u ""; u ""; u "C"; u ""]
     = [ {| content := [u "AB"] |}; {| content := [u "C"] |} ].
Proof.
  split; [apply parse_paragraphs_spec|].
  split; [|split; [apply paragraphs_not_empty|split]].
  - intros lines. split; [intros run; apply runs_maximal|apply runs_lines].
  - intros f. rewrite parse_txt_file_eq.
    destruct (parse_chapter_title (title_line f)) as [n tt].
    destruct (if n =? 0 then py_int (stem f) else Return n) as [m|e]; simpl;
      [apply parse_paragraphs_spec|done].
  - vm_compute. reflexivity.
Qed.

End SegmentationClaim.

(** ** Blank lines *)

Lemma paragraph_step_blank st line :
  Spec.blank line = true -> paragraph_step st line = paragraph_step st [].
Proof.
  intros Hl. unfold paragraph_step. destruct st as [ps cur].
  assert (strip line = []) as -> by (by apply strip_nil_iff).
  assert (strip [] = []) as -> by reflexivity. done.
Qed.

(** A blank line in the body can be exchanged for an empty one. *)
Lemma parse_paragraphs_blank before ws after :
  Spec.blank ws = true ->
  parse_paragraphs (before ++ ws :: after) = parse_paragraphs (before ++ [] :: after).
Proof.
  intros Hws. unfold parse_paragraphs. rewrite !fold_left_app. cbn [fold_left].
  by rewrite (paragraph_step_blank _ ws Hws).
Qed.

(** Only the non-blank lines contribute characters. *)
Lemma paragraphs_text lines :
  concat (map paragraph_text (parse_paragraphs lines))
  = concat (map strip (filter (fun l => Spec.blank l = false) lines)).
Proof.
  rewrite parse_paragraphs_spec. destruct (runs_lines lines) as [_ <-].
  unfold Spec.paragraphs_of. rewrite map_map.
  induction (Spec.runs lines) as [|run runs IH]; [done|].
  cbn [map concat]. rewrite IH, map_app, concat_app.
  unfold paragraph_text. simpl. by rewrite app_nil_r.
Qed.

Lemma hd_app_not_nil {A} (d : A) (l1 l2 : list A) :
  l1 <> [] -> hd d (l1 ++ l2) = hd d l1 /\ tl (l1 ++ l2) = tl l1 ++ l2.
Proof. by destruct l1. Qed.

Lemma has_text_cons_space c s : isspace c = true -> has_text (c :: s) -> has_text s.
Proof. unfold has_text. simpl. by intros ->. Qed.

(** The stripped text of a file in which the line after [pre] is the blank
    line [ws], against the same file with an empty line there: either both
    are the same text, or they differ in that line only. *)
Lemma strip_blank_line pre ws post :
  has_text pre -> forallb isspace ws = true ->
  post = [] \/ (exists post', post = newline :: post') ->
  strip (pre ++ newline :: ws ++ post) = strip (pre ++ newline :: post)
  \/ exists P Q,
       strip (pre ++ newline :: ws ++ post) = P ++ newline :: ws ++ newline :: Q
       /\ strip (pre ++ newline :: post) = P ++ newline :: newline :: Q.
Proof.
  intros Hpre Hws Hpost. unfold strip.
  rewrite !(lstrip_app_text pre) by done.
  destruct (forallb isspace post) eqn:Hp.
  - left. rewrite !(rstrip_app_space (lstrip pre)); [done| |].
    + simpl. by rewrite Hp.
    + simpl. by rewrite forallb_app, Hws, Hp.
  - right. destruct Hpost as [->|[post' ->]]; [done|].
    assert (has_text post') as Hp' by (by apply (has_text_cons_space newline)).
    exists (lstrip pre), (rstrip post'). split.
    + replace (lstrip pre ++ newline :: ws ++ newline :: post')
        with ((lstrip pre ++ newline :: ws ++ [newline]) ++ post')
        by (rewrite <- !app_assoc; simpl; by rewrite <- app_assoc).
      rewrite rstrip_app_text by done.
      rewrite <- !app_assoc. simpl. by rewrite <- app_assoc.
    + replace (lstrip pre ++ newline :: newline :: post')
        with ((lstrip pre ++ [newline; newline]) ++ post')
        by (by rewrite <- !app_assoc).
      rewrite rstrip_app_text by done. by rewrite <- !app_assoc.
Qed.

Section BlankLineClaim.
Context `{UnicodeData}.

Lemma parse_txt_file_ext f1 f2 :
  stem f1 = stem f2 -> title_line f1 = title_line f2 ->
  parse_paragraphs (body_lines f1) = parse_paragraphs (body_lines f2) ->
  parse_txt_file f1 = parse_txt_file f2.
Proof. intros Hs Ht Hb. by rewrite !parse_txt_file_eq, Hs, Ht, Hb. Qed.

(** C10.  A line of white space after the title is treated like an empty
    line: exchanging one for the other leaves the result of
    [parse_txt_file] unchanged, and only the non-blank lines contribute
    characters to the paragraphs. *)
Theorem blank_line_like_empty (file_name pre ws post : str) :
  has_text pre ->
  forallb isspace ws = true -> newline ∉ ws ->
  post = [] \/ (exists post', post = newline :: post') ->
  parse_txt_file {| name := file_name; text := pre ++ newline :: ws ++ post |}
  = parse_txt_file {| name := file_name; text := pre ++ newline :: post |}
  /\ (forall before after,
        parse_paragraphs (before ++ ws :: after)
        = parse_paragraphs (before ++ [] :: after))
  /\ (forall lines,
        concat (map paragraph_text (parse_paragraphs lines))
        = concat (map strip (filter (fun l => Spec.blank l = false) lines))).
Proof.
  intros Hpre Hws Hnl Hpost.
  split; [|split; [intros; by apply parse_paragraphs_blank|apply paragraphs_text]].
  destruct (strip_blank_line pre ws post Hpre Hws Hpost) as [E|(P & Q & E1 & E2)].
  - apply parse_txt_file_ext; unfold title_line, body_lines; simpl;
      by rewrite ?E.
  - pose proof (split_not_nil newline P) as HP.
    apply parse_txt_file_ext; unfold title_line, body_lines; cbn [text];
      rewrite ?E1, ?E2, ?split_app, ?(split_no_sep newline ws Hnl); [done| |].
    + by rewrite !(proj1 (hd_app_not_nil [] _ _ HP)).
    + rewrite !(proj2 (hd_app_not_nil [] _ _ HP)).
      change (split newline (newline :: Q)) with ([] :: split newline Q).
      by apply parse_paragraphs_blank.
Qed.

End BlankLineClaim.

Lemma blank_line_like_empty_witness :
  let pre := u "第一回 甲" ++ [newline] ++ u "A" in
  let ws := [32; 9; 0x3000]%N in
  let post := [newline] ++ u "B" in
  has_text pre /\ forallb isspace ws = true /\ (newline ∉ ws)
  /\ @parse_txt_file latin1 {| name := u "1.txt"; text := pre ++ newline :: ws ++ post |}
     = @parse_txt_file latin1 {| name := u "1.txt"; text := pre ++ newline :: post |}
  /\ @parse_txt_file latin1 {| name := u "1.txt"; text := pre ++ newline :: ws ++ post |}
     = Return {| id := 1; title := u "第一回 甲"; titleText := u "甲";
                 paragraphs := [ {| content := [u "A"] |}; {| content := [u "B"] |} ] |}.
Proof.
  intros pre ws post.
  assert (has_text pre) as Hpre by (vm_compute; reflexivity).
  assert (forallb isspace ws = true) as Hws by (vm_compute; reflexivity).
  assert (newline ∉ ws) as Hnl by by_decide.
  assert (post = [] \/ (exists post', post = newline :: post')) as Hpost
    by (right; by exists (u "B")).
  destruct (@blank_line_like_empty latin1 (u "1.txt") pre ws post Hpre Hws Hnl Hpost)
    as [E _].
  split; [done|]. split; [done|]. split; [done|]. split; [done|].
  vm_compute. reflexivity.
Defined.

(** ** The driver *)

Section DriverFacts.
Context `{UnicodeData}.

Lemma process_eq out log txt_file :
  process (out, log) txt_file
  = (match output_of txt_file with
     | Some kv => write out kv
     | None => out
     end, log ++ lines_of txt_file).
Proof.
  unfold process, output_of, lines_of, write.
  destruct (parse_txt_file txt_file) as [c|e]; simpl; by rewrite <- app_assoc.
Qed.

Lemma process_loop l out log :
  fold_left process l (out, log)
  = (fold_left write (omap output_of l) out, log ++ concat (map lines_of l)).
Proof.
  revert out log. induction l as [|f l IH]; intros out log.
  - simpl. by rewrite app_nil_r.
  - cbn [fold_left]. rewrite process_eq, IH. cbn [map concat].
    rewrite <- app_assoc. f_equal.
    change (omap output_of (f :: l))
      with (match output_of f with
            | Some kv => kv :: omap output_of l
            | None => omap output_of l
            end).
    by destruct (output_of f).
Qed.

Lemma write_union (l : list (str * str)) (out : gmap str str) :
  fold_left write l out = fold_left write l ∅ ∪ out.
Proof.
  revert out. induction l as [|[k v] l IH]; intros out; cbn [fold_left].
  - by rewrite (left_id ∅ (∪)).
  - rewrite (IH (write out (k, v))), (IH (write ∅ (k, v))). unfold write.
    cbn [fst snd]. rewrite (insert_union_singleton_l out).
    rewrite (insert_union_singleton_l ∅), (right_id ∅ (∪)).
    by rewrite (assoc (∪)).
Qed.

(** A file whose parsing raises is reported and writes nothing. *)
Lemma failed_file f e :
  parse_txt_file f = Raise e ->
  lines_of f = [Processing (name f); Error e] /\ output_of f = None.
Proof. unfold lines_of, output_of. by intros ->. Qed.

(** Once the files are sorted, every one of them is processed and the run
    ends normally, whatever their parsing raises. *)
Lemma main_completes fs l :
  sorted (source_dir fs) = Return l -> l <> [] ->
  main fs
  = {| files :=
         {| source_dir := source_dir fs;
            output_dir :=
              Some (fold_left write (omap output_of l)
                      (default ∅ (output_dir fs))) |};
       stdout := [Found (length l)] ++ concat (map lines_of l) ++ [Done];
       raised := None |}.
Proof.
  intros Hl Hne. unfold main. cbn [source_dir]. rewrite Hl.
  destruct l as [|f l]; [done|]. cbn [nonempty].
  rewrite process_loop. by rewrite <- app_assoc.
Qed.

(** The files a run writes, the printed lines and the exception depend on
    the source directory only; what [OUTPUT_DIR] held before is kept
    underneath. *)
Lemma main_stateless src :
  exists written log e,
    forall out0,
      main {| source_dir := src; output_dir := out0 |}
      = {| files := {| source_dir := src;
                       output_dir := Some (written ∪ default ∅ out0) |};
           stdout := log; raised := e |}.
Proof.
  unfold main. cbn [source_dir output_dir].
  destruct (sorted src) as [txt_files|e].
  - destruct (nonempty txt_files) eqn:Hne.
    + exists (fold_left write (omap output_of txt_files) ∅).
      exists (([Found (length txt_files)]
               ++ concat (map lines_of txt_files)) ++ [Done]), None.
      intros out0. rewrite process_loop. by rewrite write_union.
    + exists ∅, [NoFilesFound], None. intros out0. by rewrite (left_id ∅ (∪)).
  - exists ∅, [], (Some e). intros out0. by rewrite (left_id ∅ (∪)).
Qed.

(** C8.  A run is a function of the files it reads, and a second run over
    the directories the first one left behind writes the same output files
    with the same contents, prints the same lines and ends the same way. *)
Theorem conversion_idempotent (fs : Files) :
  let first := main fs in
  let second := main (files first) in
  (files second = files first
   /\ output_dir (files second) = output_dir (files first)
   /\ stdout second = stdout first
   /\ raised second = raised first)
  /\ exists written log e,
       forall out0,
         main {| source_dir := source_dir fs; output_dir := out0 |}
         = {| files := {| source_dir := source_dir fs;
                          output_dir := Some (written ∪ default ∅ out0) |};
              stdout := log; raised := e |}.
Proof.
  split; [|apply main_stateless].
  destruct fs as [src out0].
  destruct (main_stateless src) as (written & log & e & Hmain).
  cbn zeta. rewrite (Hmain out0). cbn [files]. rewrite (Hmain (Some _)).
  cbn [files stdout raised output_dir].
  change (default ∅ (Some (written ∪ default ∅ out0)))
    with (written ∪ default ∅ out0).
  rewrite (assoc (∪)), (idemp (∪)). done.
Qed.

End DriverFacts.

(** ** The chapter id *)

Lemma lookup_nonneg s v : Spec.lookup s = Some v -> 0 <= v.
Proof. intros [[Hv _]|[[_ ->]|[_ ->]]]%table_entries; lia. Qed.

Lemma value_nonneg s : 0 <= Spec.value s.
Proof.
  unfold Spec.value. destruct (Spec.lookup s) eqn:E; [|done].
  by apply (lookup_nonneg s).
Qed.

Lemma chinese_to_arabic_nonneg s : 0 <= chinese_to_arabic s.
Proof.
  rewrite chinese_to_arabic_spec. unfold Spec.numeral_parser.
  destruct (Spec.lookup s) eqn:E; [by apply (lookup_nonneg s)|].
  pose proof (value_nonneg (drop 2 s)). pose proof (value_nonneg (drop 1 s)).
  repeat case_decide; try lia.
  induction s as [|c s IH]; cbn [map foldr]; [done|].
  pose proof (value_nonneg [c]). 
  assert (0 <= foldr Z.add 0 (map (fun c => Spec.value [c]) s)); [|lia].
  clear. induction s as [|c s IH]; cbn [map foldr]; [done|].
  pose proof (value_nonneg [c]). lia.
Qed.

Lemma parse_chapter_title_nonneg line : 0 <= (parse_chapter_title line).1.
Proof.
  unfold parse_chapter_title.
  destruct (title_re (strip line)) as [[g1 g2]|]; [|done].
  apply chinese_to_arabic_nonneg.
Qed.

Lemma skip_elem p s c : c ∈ skip p s -> c ∈ s.
Proof.
  induction s as [|x s IH]; simpl; [done|].
  destruct (p x); [|done]. intros Hc. right. by apply IH.
Qed.

Lemma ascii_digit_range c d : ascii_digit c = Some d -> 0 <= d <= 9.
Proof.
  unfold ascii_digit.
  destruct (N.leb_spec 48 c), (N.leb_spec c 57); simpl; intros [= <-]; lia.
Qed.

Lemma long_digits_nonneg s acc n rest :
  0 <= acc -> long_digits acc s = Some (n, rest) -> 0 <= n.
Proof.
  remember (length s) as len eqn:Hlen. revert s acc Hlen.
  induction len as [len IH] using lt_wf_ind. intros s acc -> Hacc.
  destruct s as [|c r]; simpl; [by intros [= <- _]|].
  destruct (ascii_digit c) as [d|] eqn:Hd.
  - apply ascii_digit_range in Hd.
    apply (IH (length r)); [simpl; lia|done|lia].
  - destruct (c =? 95)%N; [|by intros [= <- _]].
    destruct r as [|c' r']; [done|].
    destruct (ascii_digit c') as [d|] eqn:Hd'; [|done].
    apply ascii_digit_range in Hd'.
    apply (IH (length r')); [simpl; lia|done|lia].
Qed.

Lemma long_from_string_nonneg buffer n :
  45%N ∉ buffer -> long_from_string buffer = Some n -> 0 <= n.
Proof.
  intros Hminus. unfold long_from_string.
  assert (45%N ∉ skip Py_ISSPACE buffer) as Hs
    by (intros Hin; by apply Hminus, (skip_elem Py_ISSPACE)).
  destruct (skip Py_ISSPACE buffer) as [|c r]; [done|].
  destruct (N.eqb_spec c 43) as [->|_].
  - destruct r as [|c r]; [done|].
    destruct (ascii_digit c) as [d|] eqn:Hd; [|done].
    destruct (long_digits d r) as [[m rest]|] eqn:E; [|done].
    destruct (skip Py_ISSPACE rest); [|done]. intros [= <-].
    apply ascii_digit_range in Hd. apply (long_digits_nonneg r d m rest); [lia|done].
  - destruct (N.eqb_spec c 45) as [->|_].
    + destruct Hs. by left.
    + destruct (ascii_digit c) as [d|] eqn:Hd; [|done].
      destruct (long_digits d r) as [[m rest]|] eqn:E; [|done].
      destruct (skip Py_ISSPACE rest); [|done]. intros [= <-].
      apply ascii_digit_range in Hd.
      apply (long_digits_nonneg r d m rest); [lia|done].
Qed.

Section IdFacts.
Context `{UnicodeData}.

Lemma transform_no_minus s : 45%N ∉ s -> 45%N ∉ transform_decimal_and_space s.
Proof.
  induction s as [|c s IH]; simpl; [done|].
  intros [Hc Hs]%not_elem_of_cons.
  destruct (c <? 127)%N.
  - apply not_elem_of_cons. split; [done|by apply IH].
  - destruct (isspace c).
    + apply not_elem_of_cons. split; [done|by apply IH].
    + destruct (todecimal c) as [d|].
      * apply not_elem_of_cons. split; [lia|by apply IH].
      * apply not_elem_of_cons. split; [done|apply not_elem_of_nil].
Qed.

Lemma py_int_nonneg s n : 45%N ∉ s -> py_int s = Return n -> 0 <= n.
Proof.
  intros Hs. unfold py_int.
  destruct (long_from_string (to_ascii s)) as [m|] eqn:E; [|done].
  intros [= <-]. apply (long_from_string_nonneg (to_ascii s)); [|done].
  unfold to_ascii. destruct (forallb _ s); [done|by apply transform_no_minus].
Qed.

(** [parse_txt_file] raises exactly when the title gives no number and
    [int()] rejects the base name. *)
Lemma parse_txt_file_raises f e :
  parse_txt_file f = Raise e <->
  (parse_chapter_title (title_line f)).1 = 0 /\ py_int (stem f) = Raise e.
Proof.
  rewrite parse_txt_file_eq.
  destruct (parse_chapter_title (title_line f)) as [n tt]. cbn [fst].
  destruct (Z.eqb_spec n 0) as [->|Hn].
  - destruct (py_int (stem f)) as [m|e']; simpl; [|by split; [intros [= ->]|intros [_ [= ->]]]].
    split; [done|by intros [_ ?]].
  - simpl. split; [done|by intros [? _]].
Qed.

(** C4 (as amended).  The id of a produced record is the numeral decoded
    from the title when that is not 0, and otherwise [int()] of the base
    name of the file; it is at least 0 unless it comes from a base name
    with a minus sign; records whose ids come from their titles share an
    id exactly when the titles decode to the same numeral. *)
Theorem chapter_id (f : TxtFile) (c : Chapter) :
  parse_txt_file f = Return c ->
  let n := (parse_chapter_title (title_line f)).1 in
  0 <= n
  /\ (n <> 0 -> id c = n)
  /\ (n = 0 -> py_int (stem f) = Return (id c))
  /\ (45%N ∉ stem f -> 0 <= id c)
  /\ (forall f' c',
        parse_txt_file f' = Return c' ->
        n <> 0 -> (parse_chapter_title (title_line f')).1 <> 0 ->
        (id c = id c' <-> n = (parse_chapter_title (title_line f')).1)).
Proof.
  assert (forall f c, parse_txt_file f = Return c ->
            let n := (parse_chapter_title (title_line f)).1 in
            (n <> 0 -> id c = n)
            /\ (n = 0 -> py_int (stem f) = Return (id c))) as Hid.
  { clear f c. intros f c. rewrite parse_txt_file_eq.
    destruct (parse_chapter_title (title_line f)) as [n tt]. cbn [fst].
    destruct (Z.eqb_spec n 0) as [->|Hn].
    - destruct (py_int (stem f)) as [m|e]; simpl; [|done].
      intros [= <-]. by split.
    - simpl. intros [= <-]. by split. }
  intros Hc n. destruct (Hid f c Hc) as [Hne H0]. fold n in Hne, H0.
  pose proof (parse_chapter_title_nonneg (title_line f)) as Hn. fold n in Hn.
  split; [done|]. split; [done|]. split; [done|]. split.
  - intros Hminus. destruct (decide (n = 0)) as [E|E].
    + by apply (py_int_nonneg (stem f)); [|apply H0].
    + rewrite (Hne E). lia.
  - intros f' c' Hc' Hn0 Hn'. destruct (Hid f' c' Hc') as [Hne' _].
    by rewrite (Hne Hn0), (Hne' Hn').
Qed.

End IdFacts.

Lemma chapter_id_witness :
  let f := {| name := u "12.txt"; text := u "Preface" ++ [newline] ++ u "A" |} in
  let c := {| id := 12; title := u "Preface"; titleText := u "Preface";
              paragraphs := [ {| content := [u "A"] |} ] |} in
  @parse_txt_file latin1 f = Return c
  /\ (parse_chapter_title (title_line f)).1 = 0
  /\ @py_int latin1 (stem f) = Return 12
  /\ 0 <= id c.
Proof.
  intros f c.
  assert (@parse_txt_file latin1 f = Return c) as Hc by (vm_compute; reflexivity).
  destruct (@chapter_id latin1 f c Hc) as (_ & _ & H0 & Hpos & _).
  split; [done|]. split; [vm_compute; reflexivity|].
  split; [apply H0; vm_compute; reflexivity|].
  apply Hpos. by_decide.
Defined.

(** C4 as stated fails: two files whose titles carry the same numeral are
    both converted, to the same id and the same output file; and a base
    name with a minus sign gives a negative id. *)
Lemma chapter_id_counterexample :
  let corpus :=
    [ {| name := u "1.txt"; text := u "第一回 甲" |};
      {| name := u "2.txt"; text := u "第一回 乙" |} ] in
  stdout (@main latin1 {| source_dir := corpus; output_dir := None |})
  = [ Found 2;
      Processing (u "1.txt"); Created (u "chapter-001.json") 1 (u "甲");
      Processing (u "2.txt"); Created (u "chapter-001.json") 1 (u "乙");
      Done ]
  /\ map (fun f => match @parse_txt_file latin1 f with
                     | Return c => Some (id c)
                     | Raise _ => None
                     end) corpus = [Some 1; Some 1]
  /\ @parse_txt_file latin1 {| name := u "-5.txt"; text := u "Preface" |}
     = Return {| id := -5; title := u "Preface"; titleText := u "Preface";
                 paragraphs := [] |}.
Proof. vm_compute. auto. Qed.

(** ** The sort key *)

Section SortKey.
Context `{UnicodeData}.

Lemma keyed_raises l f e :
  f ∈ l -> sort_key f = Raise e -> exists e', keyed l = Raise e'.
Proof.
  intros Hin Hf. induction l as [|g l IH]; [by apply elem_of_nil in Hin|].
  cbn [keyed]. apply elem_of_cons in Hin as [<-|Hin].
  - rewrite Hf. by exists e.
  - destruct (sort_key g) as [k|e']; [|by exists e'].
    destruct (IH Hin) as [e' ->]. by exists e'.
Qed.

(** C5, the failing input.  A source file called [².txt]: its base name
    passes [isdigit()] and [int()] rejects it, so the sort key raises
    outside the [try], before any file is processed: nothing is printed,
    nothing is written and the run ends with the exception. *)
Theorem superscript_name_aborts_run (fs : Files) (f : TxtFile) :
  isdigit_cp 0xB2%N = true -> todecimal 0xB2%N = None ->
  f ∈ source_dir fs -> stem f = [0xB2%N] ->
  exists e,
    main fs = {| files := {| source_dir := source_dir fs;
                             output_dir := Some (default ∅ (output_dir fs)) |};
                 stdout := [];
                 raised := Some e |}.
Proof.
  intros Hdigit Hdecimal Hin Hstem.
  assert (sort_key f = Raise (ValueError [0xB2%N])) as Hkey.
  { unfold sort_key. rewrite Hstem. unfold isdigit. cbn [forallb].
    rewrite Hdigit. cbn [andb]. unfold py_int, to_ascii.
    cbn [forallb]. change (0xB2 <? 128)%N with false. cbn [andb].
    cbn [transform_decimal_and_space]. change (0xB2 <? 127)%N with false.
    change (isspace 0xB2%N) with false. cbn iota. by rewrite Hdecimal. }
  destruct (keyed_raises _ f _ Hin Hkey) as [e He].
  exists e. unfold main, sorted. cbn [source_dir]. by rewrite He.
Qed.

End SortKey.

Lemma superscript_name_aborts_run_witness :
  let fs := {| source_dir :=
                 [ {| name := u "1.txt"; text := u "第一回 甲" |};
                   {| name := u "².txt"; text := u "第二回 乙" |} ];
               output_dir := None |} in
  @isdigit_cp latin1 0xB2%N = true /\ @todecimal latin1 0xB2%N = None
  /\ stem {| name := u "².txt"; text := u "第二回 乙" |} = [0xB2%N]
  /\ @main latin1 fs
     = {| files := {| source_dir := source_dir fs; output_dir := Some ∅ |};
          stdout := [];
          raised := Some (ValueError (u "²")) |}.
Proof.
  intros fs.
  assert (@isdigit_cp latin1 0xB2%N = true) as Hd by reflexivity.
  assert (@todecimal latin1 0xB2%N = None) as Ht by reflexivity.
  assert (stem {| name := u "².txt"; text := u "第二回 乙" |} = [0xB2%N]) as Hs
    by (vm_compute; reflexivity).
  assert ({| name := u "².txt"; text := u "第二回 乙" |} ∈ source_dir fs) as Hin
    by (cbn [source_dir fs]; apply elem_of_cons; right; apply elem_of_cons;
        by left).
  destruct (@superscript_name_aborts_run latin1 fs
              {| name := u "².txt"; text := u "第二回 乙" |} Hd Ht Hin Hs)
    as [e He].
  split; [done|]. split; [done|]. split; [done|].
  vm_compute. reflexivity.
Defined.

(** * Further properties *)

(** ** When the title pattern matches *)

Lemma re_star_tries_all {R} p (k : str -> str -> option R) s :
  re_star p k s = None ->
  forall m r, s = m ++ r -> forallb p m = true -> k m r = None.
Proof.
  revert k. induction s as [|c s IH]; intros k; simpl.
  - intros Hk m r E _. symmetry in E. apply app_eq_nil in E as [-> ->]. done.
  - destruct (p c) eqn:Hc.
    + destruct (re_star p (fun m => k (c :: m)) s) eqn:E; [done|].
      intros Hk [|x m] r Hs Hm.
      * simpl in Hs. by subst r.
      * injection Hs as <- ->. apply forallb_cons_true in Hm as [_ Hm].
        by apply (IH _ E m r).
    + intros Hk [|x m] r Hs Hm.
      * simpl in Hs. by subst r.
      * injection Hs as <- ->. apply forallb_cons_true in Hm as [Hx _].
        congruence.
Qed.

Lemma numeral_run_unique a b r r' :
  forallb numeral_glyph a = true -> forallb numeral_glyph b = true ->
  a ++ hui :: r = b ++ hui :: r' -> a = b.
Proof.
  intros Ha Hb E.
  destruct (span_app_stop numeral_glyph a hui r Ha numeral_glyph_hui) as [<- _].
  destruct (span_app_stop numeral_glyph b hui r' Hb numeral_glyph_hui) as [<- _].
  by rewrite E.
Qed.

Lemma title_pattern_matches_aux (s g1 : str) :
  (exists g2, title_re s = Some (g1, g2)) <->
  (g1 <> [] /\ forallb numeral_glyph g1 = true
   /\ exists ws c r,
        s = di :: g1 ++ hui :: ws ++ c :: r
        /\ forallb isspace ws = true /\ c <> newline).
Proof.
  split.
  - intros [g2 (ws & rest & -> & Hne & Hnum & Hws & Hne2 & Hdot)%title_re_sound].
    split; [done|]. split; [done|].
    destruct g2 as [|c g2]; [done|]. exists ws, c, (g2 ++ rest).
    split; [done|]. split; [done|].
    apply forallb_cons_true in Hdot as [Hc _]. unfold re_dot in Hc.
    by destruct (N.eqb_spec c newline).
  - intros (Hne & Hnum & ws & c & r & -> & Hws & Hc).
    destruct (title_re (di :: g1 ++ hui :: ws ++ c :: r)) as [[g1' g2]|] eqn:E.
    + exists g2. f_equal. f_equal.
      apply title_re_sound in E as (ws' & rest & E & _ & Hnum' & _).
      injection E as E. symmetry. by apply (numeral_run_unique _ _ _ _ Hnum Hnum' E).
    + exfalso. unfold title_re in E. rewrite re_lit_eq in E.
      destruct g1 as [|n nums]; [done|].
      apply forallb_cons_true in Hnum as [Hn Hnums]. cbn [app] in E.
      rewrite (re_plus_cons _ _ _ _ Hn) in E.
      pose proof (re_star_tries_all _ _ _ E nums _ eq_refl Hnums) as E1.
      cbn beta in E1. rewrite re_lit_eq in E1.
      pose proof (re_star_tries_all _ _ _ E1 ws _ eq_refl Hws) as E2.
      cbn beta in E2. unfold re_plus in E2.
      assert (re_dot c = true) as Hdot
        by (unfold re_dot; by destruct (N.eqb_spec c newline)).
      rewrite Hdot in E2.
      by pose proof (re_star_tries_all _ _ _ E2 [] r eq_refl eq_refl).
Qed.

(** X1.  The pattern matches a string with first group [g1] exactly when
    the string is [第], then [g1] made of one or more numeral glyphs, then
    [回], then white space, then a character that is not a newline. *)
Theorem title_pattern_matches (s g1 : str) :
  (exists g2, title_re s = Some (g1, g2)) <->
  (g1 <> [] /\ forallb numeral_glyph g1 = true
   /\ exists ws c r,
        s = di :: g1 ++ hui :: ws ++ c :: r
        /\ forallb isspace ws = true /\ c <> newline).
Proof. apply title_pattern_matches_aux. Qed.

(** ** Written numerals *)

Lemma standard_numerals_checked :
  forallb (fun n => chinese_to_arabic (standard_numeral n) =? numeral_result n)
          (seqZ 1 99) = true.
Proof. vm_compute. reflexivity. Qed.

Lemma standard_numerals_in_table :
  forallb (fun n => if n <=? 25
                    then bool_decide (chinese_nums !! standard_numeral n = Some n)
                    else bool_decide (chinese_nums !! standard_numeral n = None))
          (seqZ 1 99) = true.
Proof. vm_compute. reflexivity. Qed.

(** X2.  On the usual written numeral of [n], for 1 to 99, the conversion
    returns [n] up to 29; from 30 on it returns the tens digit plus 10 plus
    the units digit, which is never [n].  The table of the code holds these
    numerals up to 25 and none above. *)
Theorem standard_numeral_value (n : Z) :
  1 <= n <= 99 ->
  chinese_to_arabic (standard_numeral n)
  = (if n <=? 29 then n else n / 10 + 10 + n mod 10)
  /\ (chinese_to_arabic (standard_numeral n) = n <-> n <= 29)
  /\ (if n <=? 25 then chinese_nums !! standard_numeral n = Some n
      else chinese_nums !! standard_numeral n = None).
Proof.
  intros Hn.
  assert (In n (seqZ 1 99)) as Hin by (apply list_elem_of_In, elem_of_seqZ; lia).
  assert (chinese_to_arabic (standard_numeral n) = numeral_result n) as E.
  { pose proof standard_numerals_checked as Hall.
    rewrite forallb_forall in Hall. by apply Z.eqb_eq, Hall. }
  rewrite E. unfold numeral_result. split; [done|]. split.
  - destruct (Z.leb_spec n 29); [split; [lia|done]|].
    split; [|lia]. intros E'. exfalso.
    pose proof (Z.div_mod n 10 ltac:(lia)).
    pose proof (Z.mod_pos_bound n 10 ltac:(lia)). lia.
  - pose proof standard_numerals_in_table as Hall.
    rewrite forallb_forall in Hall. apply Hall in Hin.
    destruct (n <=? 25); by apply bool_decide_eq_true in Hin.
Qed.

Lemma standard_numeral_value_witness :
  1 <= 30 <= 99
  /\ standard_numeral 30 = u "三十"
  /\ chinese_to_arabic (standard_numeral 30) = 13
  /\ chinese_to_arabic (standard_numeral 13) = 13.
Proof.
  assert (1 <= 30 <= 99) as H30 by lia. assert (1 <= 13 <= 99) as H13 by lia.
  destruct (standard_numeral_value 30 H30) as [E30 _].
  destruct (standard_numeral_value 13 H13) as [E13 _].
  change (30 <=? 29) with false in E30. change (13 <=? 29) with true in E13.
  split; [done|]. split; [vm_compute; reflexivity|]. by rewrite E30, E13.
Defined.

(** ** When the file name gives the id *)

Lemma numeral_glyph_cases c :
  numeral_glyph c = true -> In c (u "一二三四五六七八九十百零").
Proof.
  unfold numeral_glyph. by intros (x & Hin & ->%N.eqb_eq)%existsb_exists.
Qed.

Lemma glyph_value c :
  numeral_glyph c = true ->
  0 <= Spec.value [c] /\ (Spec.value [c] = 0 <-> c = ling).
Proof.
  intros Hin%numeral_glyph_cases. vm_compute in Hin.
  repeat (destruct Hin as [<-|Hin]; [by vm_compute|]). done.
Qed.

Lemma glyph_sum_zero g :
  forallb numeral_glyph g = true ->
  0 <= foldr Z.add 0 (map (fun c => Spec.value [c]) g)
  /\ (foldr Z.add 0 (map (fun c => Spec.value [c]) g) = 0
      <-> Forall (fun c => c = ling) g).
Proof.
  induction g as [|c g IH]; [done|]. cbn [map foldr].
  intros [Hc Hg]%forallb_cons_true. destruct (IH Hg) as [Hpos Hzero].
  destruct (glyph_value c Hc) as [Hcpos Hczero].
  split; [lia|]. rewrite Forall_cons, <- Hzero, <- Hczero. lia.
Qed.

Lemma table_key_of_zero s v :
  Spec.lookup s = Some v -> (v = 0 <-> s = [ling]).
Proof.
  intros [[Hv ->]|[[-> ->]|[-> ->]]]%table_entries; [|done..].
  split; [lia|]. intros E. exfalso.
  assert (v ∈ seqZ 1 25) as Hin by (apply elem_of_seqZ; lia).
  clear Hv. vm_compute in Hin.
  repeat (apply elem_of_cons in Hin as [->|Hin]; [by vm_compute in E|]).
  by apply elem_of_nil in Hin.
Qed.

(** The conversion gives 0 on the numerals made of [零] only. *)
Lemma chinese_to_arabic_zero g :
  g <> [] -> forallb numeral_glyph g = true ->
  (chinese_to_arabic g = 0 <-> Forall (fun c => c = ling) g).
Proof.
  intros Hne Hg. rewrite chinese_to_arabic_spec. unfold Spec.numeral_parser.
  destruct (Spec.lookup g) as [v|] eqn:E.
  - rewrite (table_key_of_zero g v E). split; [by intros ->; constructor|].
    intros Hall. destruct (glyph_sum_zero g Hg) as [_ Hsum].
    apply Hsum in Hall. apply table_entries in E.
    destruct E as [[Hv ->]|[[-> ->]|[-> ->]]]; [|by vm_compute in Hall|done].
    exfalso. assert (v ∈ seqZ 1 25) as Hin by (apply elem_of_seqZ; lia).
    clear Hv Hne Hg Hsum. vm_compute in Hin.
    repeat (apply elem_of_cons in Hin as [->|Hin]; [by vm_compute in Hall|]).
    by apply elem_of_nil in Hin.
  - pose proof (value_nonneg (drop 2 g)). pose proof (value_nonneg (drop 1 g)).
    destruct (glyph_sum_zero g Hg) as [_ Hsum].
    destruct (decide (Spec.starts_with (u "二十") g)) as [[rest ->]|_].
    { split; [case_decide; lia|]. intros [Hc _]%Forall_cons.
      by vm_compute in Hc. }
    destruct (decide (Spec.starts_with (u "十") g)) as [[rest ->]|_].
    { split; [case_decide; lia|]. intros [Hc _]%Forall_cons.
      by vm_compute in Hc. }
    done.
Qed.

Section FallbackUse.
Context `{UnicodeData}.

(** X3.  The id is taken from the file name exactly when the trimmed first
    line does not match the pattern or its numeral is made of [零] only;
    in every other case the id is the number of the title, whatever the
    file is called. *)
Theorem file_name_used_exactly_when (f : TxtFile) :
  ((parse_chapter_title (title_line f)).1 = 0 <->
   title_re (title_line f) = None
   \/ exists g1 g2, title_re (title_line f) = Some (g1, g2)
                    /\ Forall (fun c => c = ling) g1)
  /\ parse_txt_file f =
     (let '(chapter_num, title_text) := parse_chapter_title (title_line f) in
      if chapter_num =? 0 then
        n ← py_int (stem f);
        Return {| id := n; title := title_line f; titleText := title_text;
                  paragraphs := parse_paragraphs (body_lines f) |}
      else
        Return {| id := chapter_num; title := title_line f;
                  titleText := title_text;
                  paragraphs := parse_paragraphs (body_lines f) |}).
Proof.
  split.
  - unfold parse_chapter_title. rewrite title_line_strip.
    destruct (title_re (title_line f)) as [[g1 g2]|] eqn:E; cbn [fst].
    + destruct (proj1 (title_pattern_matches_aux (title_line f) g1)
                  (ex_intro _ g2 E)) as (Hne & Hnum & _).
      rewrite (chinese_to_arabic_zero g1 Hne Hnum). split.
      * intros Hall. right. by exists g1, g2.
      * intros [?|(g1' & g2' & [= <- <-] & Hall)]; done.
    + split; [by left|done].
  - rewrite parse_txt_file_eq.
    destruct (parse_chapter_title (title_line f)) as [n tt].
    by destruct (n =? 0).
Qed.

End FallbackUse.

(** ** What [parse_chapter_title] returns *)

Lemma strip_infix s :
  exists a b, s = a ++ strip s ++ b
              /\ forallb isspace a = true /\ forallb isspace b = true.
Proof.
  destruct (lstrip_suffix s) as (a & Ha & Hsa).
  destruct (rstrip_prefix (lstrip s)) as (b & Hb & Hsb).
  exists a, b. unfold strip. by rewrite <- Hb, <- Ha.
Qed.

Lemma rstrip_strip s : rstrip (strip s) = strip s.
Proof. unfold strip. apply rstrip_idemp. Qed.

Lemma lstrip_strip s : lstrip (strip s) = strip s.
Proof. unfold strip. by rewrite lstrip_rstrip, lstrip_idemp. Qed.

Lemma rstrip_fixed_tail a r : rstrip (a ++ r) = a ++ r -> r <> [] -> has_text r.
Proof.
  intros E Hr. unfold has_text. destruct (forallb isspace r) eqn:Hs; [|done].
  rewrite rstrip_app_space in E by done.
  destruct (rstrip_prefix a) as (t & Ha & _).
  apply (f_equal length) in E, Ha. rewrite !length_app in *.
  destruct r; [done|]. simpl in *. lia.
Qed.

Lemma elem_of_strip c s : c ∈ strip s -> c ∈ s.
Proof.
  destruct (strip_infix s) as (a & b & E & _). intros Hc. rewrite E.
  rewrite !elem_of_app. auto.
Qed.

(** In a trimmed line the second group starts with a character that is
    not white space. *)
Lemma title_re_group2 s g1 g2 :
  rstrip s = s -> title_re s = Some (g1, g2) ->
  exists c r, g2 = c :: r /\ isspace c = false /\ (newline ∉ g2)
              /\ exists pre rest, s = pre ++ g2 ++ rest.
Proof.
  intros Hs E.
  destruct (title_re_sound s g1 g2 E)
    as (ws & rest & Es & Hne & Hnum & Hws & Hne2 & Hdot).
  assert (has_text (ws ++ g2 ++ rest)) as Htext.
  { apply (rstrip_fixed_tail (di :: g1 ++ [hui])).
    - replace ((di :: g1 ++ [hui]) ++ ws ++ g2 ++ rest) with s; [done|].
      rewrite Es. cbn [app]. by rewrite <- app_assoc.
    - destruct ws, g2; done. }
  destruct (has_text_split _ Htext) as (ws' & c & r & E' & Hws' & Hc).
  destruct g1 as [|n nums]; [done|].
  rewrite Es, E', title_re_match in E by done.
  injection E as <-. exists c, (span re_dot r).
  split; [done|]. split; [done|]. split.
  - intros Hin. apply list_elem_of_In in Hin.
    rewrite forallb_forall in Hdot. apply Hdot in Hin. by vm_compute in Hin.
  - exists (di :: (n :: nums) ++ hui :: ws), rest. rewrite Es.
    cbn [app]. do 2 f_equal. by rewrite <- app_assoc.
Qed.

Lemma parse_chapter_title_facts (line : str) :
  0 <= (parse_chapter_title line).1
  /\ strip (parse_chapter_title line).2 = (parse_chapter_title line).2
  /\ (exists a b, line = a ++ (parse_chapter_title line).2 ++ b)
  /\ match title_re (strip line) with
     | Some (g1, _) =>
         (parse_chapter_title line).1 = chinese_to_arabic g1
         /\ (parse_chapter_title line).2 <> []
         /\ newline ∉ (parse_chapter_title line).2
     | None => parse_chapter_title line = (0, strip line)
     end.
Proof.
  split; [apply parse_chapter_title_nonneg|].
  destruct (strip_infix line) as (a0 & b0 & Eline & _).
  unfold parse_chapter_title.
  destruct (title_re (strip line)) as [[g1 g2]|] eqn:E; cbn [fst snd].
  - destruct (title_re_group2 _ g1 g2 (rstrip_strip line) E)
      as (c & r & Eg & Hc & Hnl & pre & rest & ES).
    split; [apply strip_idemp|]. split; [|split; [done|split]].
    + destruct (strip_infix g2) as (a1 & b1 & Eg2 & _).
      exists (a0 ++ pre ++ a1), (b1 ++ rest ++ b0).
      rewrite Eline at 1. rewrite ES at 1. rewrite Eg2 at 1.
      by rewrite <- !app_assoc.
    + intros En. apply strip_nil_iff in En. rewrite Eg in En.
      apply forallb_cons_true in En as [En _]. congruence.
    + intros Hin. by apply Hnl, elem_of_strip.
  - split; [apply strip_idemp|]. split; [|done]. by exists a0, b0.
Qed.

(** X4.  Whatever the first line is, the chapter number is not negative
    and the title text is a trimmed, contiguous piece of the line; when the
    pattern matches, the title text is not empty and holds no newline. *)
Theorem title_text_invariants (line : str) :
  0 <= (parse_chapter_title line).1
  /\ strip (parse_chapter_title line).2 = (parse_chapter_title line).2
  /\ (exists a b, line = a ++ (parse_chapter_title line).2 ++ b)
  /\ match title_re (strip line) with
     | Some (g1, _) =>
         (parse_chapter_title line).1 = chinese_to_arabic g1
         /\ (parse_chapter_title line).2 <> []
         /\ newline ∉ (parse_chapter_title line).2
     | None => parse_chapter_title line = (0, strip line)
     end.
Proof. apply parse_chapter_title_facts. Qed.

(** ** What a record holds *)

Lemma split_no_sep_inside sep s : Forall (fun l => sep ∉ l) (split sep s).
Proof.
  induction s as [|c s IH]; simpl.
  - constructor; [apply not_elem_of_nil|constructor].
  - destruct (N.eqb_spec c sep) as [->|Hc].
    + constructor; [apply not_elem_of_nil|done].
    + pose proof (split_not_nil sep s).
      destruct (split sep s) as [|l ls]; [done|].
      apply Forall_cons in IH as [Hl Hls]. constructor; [|done].
      apply not_elem_of_cons. split; [congruence|done].
Qed.

Lemma title_line_no_newline f : newline ∉ title_line f.
Proof.
  unfold title_line. intros Hin%elem_of_strip.
  pose proof (split_no_sep_inside newline (strip (text f))) as Hall.
  pose proof (split_not_nil newline (strip (text f))).
  destruct (split newline (strip (text f))) as [|l ls]; [done|].
  by apply Forall_cons in Hall as [Hl _].
Qed.

Lemma body_lines_no_newline f : Forall (fun l => newline ∉ l) (body_lines f).
Proof.
  unfold body_lines.
  pose proof (split_no_sep_inside newline (strip (text f))) as Hall.
  destruct (split newline (strip (text f))) as [|l ls]; [done|].
  by apply Forall_cons in Hall as [_ Hls].
Qed.

(** A trimmed string that is not empty starts and ends with text. *)
Lemma trimmed_facts x :
  x <> [] -> strip x = x -> has_text x /\ lstrip x = x /\ rstrip x = x.
Proof.
  intros Hne Hx. split; [|split].
  - unfold has_text. destruct (forallb isspace x) eqn:E; [|done].
    apply strip_nil_iff in E. congruence.
  - by rewrite <- Hx, lstrip_strip.
  - by rewrite <- Hx, rstrip_strip.
Qed.

Lemma trimmed_concat (parts : list str) :
  parts <> [] -> Forall (fun x => x <> [] /\ strip x = x) parts ->
  concat parts <> [] /\ strip (concat parts) = concat parts.
Proof.
  intros Hne Hall.
  assert (lstrip (concat parts) = concat parts /\ concat parts <> []) as [Hl Hn].
  { destruct parts as [|x parts]; [done|].
    apply Forall_cons in Hall as [[Hx Hsx] _].
    destruct (trimmed_facts x Hx Hsx) as (Ht & Hlx & _).
    destruct (lstrip_text x Ht) as (c & r & E & Hc). rewrite Hlx in E.
    subst x. simpl. by rewrite Hc. }
  split; [done|]. unfold strip. rewrite Hl.
  destruct parts as [|y parts _] using rev_ind; [done|].
  apply Forall_app in Hall as [_ [[Hy Hsy] _]%Forall_cons].
  destruct (trimmed_facts y Hy Hsy) as (Ht & _ & Hry).
  rewrite concat_app. simpl. rewrite app_nil_r.
  by rewrite rstrip_app_text, Hry.
Qed.

Lemma run_in_lines lines run l : run ∈ Spec.runs lines -> l ∈ run -> l ∈ lines.
Proof.
  intros (_ & _ & before & after & -> & _)%runs_maximal Hl.
  rewrite !elem_of_app. auto.
Qed.

(** A paragraph is one string, not empty, trimmed, made of characters of
    the lines. *)
Lemma paragraphs_facts lines :
  Forall (fun p => exists s, content p = [s] /\ s <> [] /\ strip s = s
                             /\ forall c, c ∈ s -> exists l, l ∈ lines /\ c ∈ l)
         (parse_paragraphs lines).
Proof.
  rewrite parse_paragraphs_spec. unfold Spec.paragraphs_of.
  apply Forall_fmap, Forall_forall. intros run Hrun.
  pose proof (proj1 (runs_maximal lines run) Hrun) as (Hne & Hall & _).
  exists (concat (map strip run)). split; [done|].
  destruct (trimmed_concat (map strip run)) as [Hn Hs].
  - by destruct run.
  - apply Forall_fmap. eapply Forall_impl; [exact Hall|].
    intros l Hl. simpl. split; [|apply strip_idemp].
    intros E. apply strip_nil_iff in E. unfold Spec.blank in Hl. congruence.
  - split; [done|]. split; [done|].
    intros c Hc. apply list_elem_of_In, in_concat in Hc as (x & Hx & Hc).
    apply in_map_iff in Hx as (l & <- & Hl).
    apply list_elem_of_In in Hc, Hl.
    exists l. split; [by apply (run_in_lines lines run)|by apply elem_of_strip].
Qed.

Section RecordFacts.
Context `{UnicodeData}.

(** X5.  In every record produced, the title and the title text are
    trimmed and hold no newline, and every paragraph is a single string
    that is not empty, is trimmed and holds no newline. *)
Theorem record_invariants (f : TxtFile) (c : Chapter) :
  parse_txt_file f = Return c ->
  (newline ∉ title c) /\ strip (title c) = title c
  /\ (newline ∉ titleText c) /\ strip (titleText c) = titleText c
  /\ Forall (fun p => exists s, content p = [s] /\ s <> [] /\ strip s = s
                                /\ newline ∉ s)
            (paragraphs c).
Proof.
  rewrite parse_txt_file_eq.
  pose proof (parse_chapter_title_facts (title_line f)) as (_ & Htt & (a & b & Ett) & _).
  destruct (parse_chapter_title (title_line f)) as [n tt]. cbn [snd] in *.
  destruct (if n =? 0 then py_int (stem f) else Return n) as [m|e]; [|done].
  intros [= <-]. cbn [title titleText paragraphs].
  pose proof (title_line_no_newline f) as Hnl.
  split; [done|]. split; [apply title_line_strip|]. split; [|split; [done|]].
  - intros Hin. apply Hnl. rewrite Ett, !elem_of_app. auto.
  - eapply Forall_impl; [apply paragraphs_facts|].
    intros p (s & Hp & Hne & Hs & Hchars). exists s.
    split; [done|]. split; [done|]. split; [done|].
    intros (l & Hl & Hin)%Hchars.
    pose proof (body_lines_no_newline f) as Hall.
    by apply (proj1 (Forall_forall _ _) Hall l Hl).
Qed.

End RecordFacts.

Lemma record_invariants_witness :
  let f := {| name := u "1.txt";
              text := u "  第一回 甲  " ++ [newline] ++ u " A " ++ [newline] ++ u "B" |} in
  let c := {| id := 1; title := u "第一回 甲"; titleText := u "甲";
              paragraphs := [ {| content := [u "AB"] |} ] |} in
  @parse_txt_file latin1 f = Return c
  /\ (newline ∉ title c) /\ strip (title c) = title c.
Proof.
  intros f c.
  assert (@parse_txt_file latin1 f = Return c) as Hc by (vm_compute; reflexivity).
  destruct (@record_invariants latin1 f c Hc) as (H1 & H2 & _).
  done.
Defined.

(** ** Nothing but white space is lost *)

Lemma ink_app a b : ink (a ++ b) = ink a ++ ink b.
Proof. apply filter_app. Qed.

Lemma ink_space s : forallb isspace s = true -> ink s = [].
Proof.
  unfold ink. induction s as [|c s IH]; [done|].
  intros [Hc Hs]%forallb_cons_true. rewrite filter_cons.
  destruct (decide (isspace c = false)); [congruence|by apply IH].
Qed.

Lemma ink_strip s : ink (strip s) = ink s.
Proof.
  destruct (strip_infix s) as (a & b & E & Ha & Hb).
  rewrite E at 2. rewrite !ink_app, (ink_space a Ha), (ink_space b Hb).
  by rewrite app_nil_r.
Qed.

Lemma ink_lines s : ink (concat (split newline s)) = ink s.
Proof.
  induction s as [|c s IH]; [done|]. cbn [split].
  destruct (N.eqb_spec c newline) as [->|Hc].
  - cbn [concat app]. rewrite IH. unfold ink. rewrite filter_cons.
    by destruct (decide (isspace newline = false)).
  - pose proof (split_not_nil newline s).
    destruct (split newline s) as [|l ls]; [done|].
    cbn [concat app] in *. change (c :: ?x) with ([c] ++ x).
    by rewrite (ink_app [c] (l ++ concat ls)), (ink_app [c] s), IH.
Qed.

Lemma ink_stripped_lines lines :
  ink (concat (map strip (filter (fun l => Spec.blank l = false) lines)))
  = ink (concat lines).
Proof.
  induction lines as [|l lines IH]; [done|].
  rewrite filter_cons. cbn [concat]. rewrite ink_app, <- IH.
  destruct (decide (Spec.blank l = false)) as [Hl|Hl].
  - cbn [map concat]. by rewrite ink_app, ink_strip.
  - apply not_false_is_true in Hl. by rewrite (ink_space l Hl).
Qed.

Section InkPreserved.
Context `{UnicodeData}.

(** X6.  A record keeps every character of the file that is not white
    space, in order: the title followed by the paragraphs has the same
    such characters as the text of the file. *)
Theorem text_preserved (f : TxtFile) (c : Chapter) :
  parse_txt_file f = Return c ->
  ink (title c ++ concat (map paragraph_text (paragraphs c))) = ink (text f).
Proof.
  rewrite parse_txt_file_eq.
  destruct (parse_chapter_title (title_line f)) as [n tt].
  destruct (if n =? 0 then py_int (stem f) else Return n) as [m|e]; [|done].
  intros [= <-]. cbn [title paragraphs].
  rewrite ink_app, paragraphs_text, ink_stripped_lines.
  unfold title_line, body_lines. rewrite ink_strip.
  rewrite <- (ink_strip (text f)), <- (ink_lines (strip (text f))).
  pose proof (split_not_nil newline (strip (text f))).
  destruct (split newline (strip (text f))) as [|l ls]; [done|].
  cbn [hd tl concat]. by rewrite ink_app.
Qed.

End InkPreserved.

Lemma text_preserved_witness :
  let f := {| name := u "1.txt";
              text := u " 第一回 甲 乙" ++ [newline; newline] ++ u " A b "
                        ++ [newline] ++ u "c" ++ [newline] |} in
  let c := {| id := 1; title := u "第一回 甲 乙"; titleText := u "甲 乙";
              paragraphs := [ {| content := [u "A bc"] |} ] |} in
  @parse_txt_file latin1 f = Return c
  /\ ink (text f) = u "第一回甲乙Abc"
  /\ ink (title c ++ concat (map paragraph_text (paragraphs c))) = u "第一回甲乙Abc".
Proof.
  intros f c.
  assert (@parse_txt_file latin1 f = Return c) as Hc by (vm_compute; reflexivity).
  split; [done|]. rewrite (@text_preserved latin1 f c Hc).
  split; vm_compute; reflexivity.
Defined.

(** ** Reading decimal digits back *)

Lemma long_digits_step acc k r :
  (k < 10)%N ->
  long_digits acc ((48 + k)%N :: r) = long_digits (acc * 10 + Z.of_N k) r.
Proof.
  intros Hk. cbn [long_digits]. unfold ascii_digit.
  destruct (N.leb_spec 48 (48 + k)), (N.leb_spec (48 + k) 57); try lia.
  cbn [andb]. f_equal. lia.
Qed.

Lemma long_digits_acc d acc :
  long_digits (Z.pos acc) (uint_digits d)
  = Some (Z.pos (Pos.of_uint_acc d acc), []).
Proof.
  revert acc. induction d; intros acc; cbn [uint_digits Pos.of_uint_acc];
    [done|..].
  all: match goal with
       | |- long_digits _ (?c :: _) = _ =>
           let k := eval vm_compute in (c - 48)%N in
           change c with (48 + k)%N;
           rewrite long_digits_step by (by vm_compute)
       end.
  all: rewrite <- IHd; f_equal; lia.
Qed.

Lemma long_digits_uint d :
  long_digits 0 (uint_digits d) = Some (Z.of_N (Pos.of_uint d), []).
Proof.
  induction d; cbn [uint_digits Pos.of_uint]; [done|..].
  all: match goal with
       | |- long_digits _ (?c :: _) = _ =>
           let k := eval vm_compute in (c - 48)%N in
           change c with (48 + k)%N;
           rewrite long_digits_step by (by vm_compute)
       end.
  all: try exact IHd.
  all: cbn [Z.mul Z.add Z.of_N]; apply long_digits_acc.
Qed.

Lemma uint_digits_head d :
  d <> Decimal.Nil ->
  exists c r, uint_digits d = c :: r
              /\ ascii_digit c <> None /\ Py_ISSPACE c = false
              /\ (c =? 43)%N = false /\ (c =? 45)%N = false.
Proof. destruct d; [done|..]; intros _; eexists _, _; by vm_compute. Qed.

Lemma uint_digits_ascii d : forallb (fun c => (c <? 128)%N) (uint_digits d) = true.
Proof. induction d; simpl; done. Qed.

(** The digits of an unsigned literal, and the same after a minus sign. *)
Lemma long_from_string_digits d :
  d <> Decimal.Nil ->
  long_from_string (uint_digits d) = Some (Z.of_N (N.of_uint d))
  /\ long_from_string (45%N :: uint_digits d) = Some (- Z.of_N (N.of_uint d)).
Proof.
  intros Hd. pose proof (long_digits_uint d) as Hv.
  destruct (uint_digits_head d Hd) as (c & r & E & Hdig & Hsp & H43 & H45).
  rewrite E in *. cbn [long_digits] in Hv.
  destruct (ascii_digit c) as [k|] eqn:Hk; [|done].
  unfold long_from_string. cbn [skip]. rewrite Hsp.
  change (Py_ISSPACE 45) with false. cbn iota. rewrite H43, H45.
  change (45 =? 43)%N with false. change (45 =? 45)%N with true. cbn iota.
  rewrite Hk. change (0 * 10 + k) with k in Hv. rewrite Hv. by cbn.
Qed.

Lemma zeros_uint k d :
  repeat 48%N k ++ uint_digits d = uint_digits (Nat.iter k Decimal.D0 d)
  /\ N.of_uint (Nat.iter k Decimal.D0 d) = N.of_uint d
  /\ (d <> Decimal.Nil -> Nat.iter k Decimal.D0 d <> Decimal.Nil).
Proof.
  induction k as [|k (IH1 & IH2 & IH3)]; [done|]. cbn [repeat app Nat.iter].
  split; [by rewrite IH1|]. split; [exact IH2|done].
Qed.

Lemma to_uint_not_nil n : N.to_uint n <> Decimal.Nil.
Proof. destruct n; [done|]. apply DecimalPos.Unsigned.to_uint_nonnil. Qed.

Lemma zfill_value width n :
  exists d, zfill width (digits_of n) = uint_digits d
            /\ d <> Decimal.Nil /\ Z.of_N (N.of_uint d) = Z.abs n.
Proof.
  unfold zfill, digits_of.
  destruct (zeros_uint (width - length (uint_digits (N.to_uint (Z.abs_N n))))
              (N.to_uint (Z.abs_N n))) as (E1 & E2 & E3).
  eexists. split; [exact E1|]. split; [apply E3, to_uint_not_nil|].
  rewrite E2, DecimalN.Unsigned.of_to. lia.
Qed.

Section ReadingBack.
Context `{UnicodeData}.

Lemma py_int_digits d :
  d <> Decimal.Nil ->
  py_int (uint_digits d) = Return (Z.of_N (N.of_uint d))
  /\ py_int (45%N :: uint_digits d) = Return (- Z.of_N (N.of_uint d)).
Proof.
  intros Hd. destruct (long_from_string_digits d Hd) as [E1 E2].
  split.
  - unfold py_int, to_ascii. rewrite uint_digits_ascii. by rewrite E1.
  - unfold py_int, to_ascii. cbn [forallb]. rewrite uint_digits_ascii.
    change (45 <? 128)%N with true. cbn [andb]. by rewrite E2.
Qed.

Lemma py_int_format n : py_int (format_03d n) = Return n.
Proof.
  unfold format_03d. destruct (Z.ltb_spec n 0).
  - destruct (zfill_value 2 n) as (d & -> & Hd & Hv).
    rewrite (proj2 (py_int_digits d Hd)), Hv. f_equal. lia.
  - destruct (zfill_value 3 n) as (d & -> & Hd & Hv).
    rewrite (proj1 (py_int_digits d Hd)), Hv. f_equal. lia.
Qed.

(** X7.  The number in the name of an output file reads back as the id,
    so two ids share a name only when they are equal; the number takes at
    least three characters. *)
Theorem output_name_round_trip (n m : Z) :
  py_int (format_03d n) = Return n
  /\ (format_03d n = format_03d m <-> n = m)
  /\ (u "chapter-" ++ format_03d n ++ u ".json"
      = u "chapter-" ++ format_03d m ++ u ".json" <-> n = m)
  /\ (3 <= length (format_03d n))%nat.
Proof.
  assert (format_03d n = format_03d m <-> n = m) as Hinj.
  { split; [|by intros ->]. intros E.
    pose proof (py_int_format n) as Hn. rewrite E, py_int_format in Hn.
    by injection Hn. }
  split; [apply py_int_format|]. split; [done|]. split.
  - rewrite <- Hinj. split; [|by intros ->].
    intros E. apply app_inv_head in E. by apply app_inv_tail in E.
  - unfold format_03d, zfill. destruct (n <? 0); cbn [length];
      rewrite length_app, repeat_length; lia.
Qed.

(** X8.  A file whose base name is the decimal writing of [n >= 0], with
    any number of leading zeros, and whose title gives no number, is
    converted with id [n]. *)
Theorem numbered_file_name (f : TxtFile) (n : Z) (zeros : nat) (tt : str) :
  0 <= n ->
  stem f = repeat 48%N zeros ++ int_repr n ->
  parse_chapter_title (title_line f) = (0, tt) ->
  parse_txt_file f =
  Return {| id := n; title := title_line f; titleText := tt;
            paragraphs := parse_paragraphs (body_lines f) |}.
Proof.
  intros Hn Hstem Htitle. rewrite (parse_txt_file_fallback f tt Htitle), Hstem.
  unfold int_repr. destruct (Z.ltb_spec n 0); [lia|]. unfold digits_of.
  destruct (zeros_uint zeros (N.to_uint (Z.abs_N n))) as (-> & E2 & E3).
  rewrite (proj1 (py_int_digits _ (E3 (to_uint_not_nil _)))), E2.
  rewrite DecimalN.Unsigned.of_to. replace (Z.of_N (Z.abs_N n)) with n by lia.
  reflexivity.
Qed.

End ReadingBack.

Lemma numbered_file_name_witness :
  let f := {| name := u "007.txt"; text := u "Preface" |} in
  0 <= 7 /\ stem f = repeat 48%N 2 ++ int_repr 7
  /\ @parse_txt_file latin1 f =
     Return {| id := 7; title := u "Preface"; titleText := u "Preface";
               paragraphs := [] |}.
Proof.
  intros f.
  assert (0 <= 7) as H7 by lia.
  assert (stem f = repeat 48%N 2 ++ int_repr 7) as Hs by (vm_compute; reflexivity).
  split; [done|]. split; [done|].
  rewrite (@numbered_file_name latin1 f 7 2 (u "Preface") H7 Hs
             ltac:(vm_compute; reflexivity)).
  vm_compute. reflexivity.
Defined.

(** ** The order of processing *)

Lemma insert_by_key_perm {A} (x : Z * A) l : insert_by_key x l ≡ₚ x :: l.
Proof.
  induction l as [|y l IH]; simpl; [done|].
  destruct (x.1 <=? y.1); [done|]. by rewrite IH, Permutation_swap.
Qed.

Lemma sort_by_key_perm {A} (l : list (Z * A)) : sort_by_key l ≡ₚ l.
Proof.
  induction l as [|x l IH]; simpl; [done|].
  by rewrite insert_by_key_perm, IH.
Qed.

Lemma insert_by_key_sorted {A} (x : Z * A) l :
  StronglySorted (fun a b => a.1 <= b.1) l ->
  StronglySorted (fun a b => a.1 <= b.1) (insert_by_key x l).
Proof.
  induction 1 as [|y l Hl IH Hy]; simpl.
  - by repeat constructor.
  - destruct (Z.leb_spec x.1 y.1).
    + constructor; [by constructor|]. constructor; [done|].
      eapply Forall_impl; [exact Hy|]. simpl. lia.
    + constructor; [done|]. rewrite insert_by_key_perm.
      constructor; [lia|done].
Qed.

Lemma sort_by_key_sorted {A} (l : list (Z * A)) :
  StronglySorted (fun a b => a.1 <= b.1) (sort_by_key l).
Proof.
  induction l as [|x l IH]; simpl; [constructor|].
  by apply insert_by_key_sorted.
Qed.

(** Files with the same key keep their order. *)
Lemma insert_by_key_stable {A} (x : Z * A) l k :
  filter (fun p => p.1 = k) (insert_by_key x l)
  = filter (fun p => p.1 = k) (x :: l).
Proof.
  induction l as [|y l IH]; simpl; [done|].
  destruct (Z.leb_spec x.1 y.1); [done|].
  rewrite filter_cons, IH, !filter_cons.
  destruct (decide (y.1 = k)), (decide (x.1 = k)); try done. lia.
Qed.

Lemma sort_by_key_stable {A} (l : list (Z * A)) k :
  filter (fun p => p.1 = k) (sort_by_key l) = filter (fun p => p.1 = k) l.
Proof.
  induction l as [|x l IH]; simpl; [done|].
  by rewrite insert_by_key_stable, !filter_cons, IH.
Qed.

Section Order.
Context `{UnicodeData}.

Lemma keyed_returns l kl :
  keyed l = Return kl ->
  map snd kl = l /\ Forall (fun p => p.1 = key_of p.2) kl.
Proof.
  revert kl. induction l as [|f l IH]; intros kl; cbn [keyed].
  - by intros [= <-].
  - destruct (sort_key f) as [k|e] eqn:Ek; [|done]. cbn.
    destruct (keyed l) as [kl'|e]; [|done]. cbn. intros [= <-].
    destruct (IH kl' eq_refl) as [E Hall]. cbn [map snd]. rewrite E.
    split; [done|]. constructor; [|done]. unfold key_of. cbn. by rewrite Ek.
Qed.

Lemma filter_keyed (kl : list (Z * TxtFile)) k :
  Forall (fun p => p.1 = key_of p.2) kl ->
  map snd (filter (fun p => p.1 = k) kl)
  = filter (fun f => key_of f = k) (map snd kl).
Proof.
  induction 1 as [|p kl Hp _ IH]; [done|].
  cbn [map]. rewrite !filter_cons, <- IH, <- Hp.
  by destruct (decide (p.1 = k)).
Qed.

Lemma sorted_files (ps : list (Z * TxtFile)) :
  StronglySorted (fun a b => a.1 <= b.1) ps ->
  Forall (fun p => p.1 = key_of p.2) ps ->
  StronglySorted (fun f g => key_of f <= key_of g) (map snd ps).
Proof.
  induction 1 as [|p ps Hps IH Hp]; [constructor|].
  intros [Ep Hkeys]%Forall_cons. cbn [map].
  constructor; [by apply IH|].
  apply Forall_forall. intros g Hg. apply list_elem_of_In, in_map_iff in Hg.
  destruct Hg as (q & <- & Hq%list_elem_of_In). rewrite <- Ep.
  rewrite <- (proj1 (Forall_forall _ _) Hkeys q Hq).
  by apply (proj1 (Forall_forall _ _) Hp).
Qed.

Lemma sorted_facts (l l' : list TxtFile) :
  sorted l = Return l' ->
  l' ≡ₚ l
  /\ StronglySorted (fun f g => key_of f <= key_of g) l'
  /\ forall k, filter (fun f => key_of f = k) l' = filter (fun f => key_of f = k) l.
Proof.
  unfold sorted. destruct (keyed l) as [kl|e] eqn:E; [|done]. cbn.
  intros [= <-]. destruct (keyed_returns l kl E) as [Hl Hkeys].
  assert (Forall (fun p => p.1 = key_of p.2) (sort_by_key kl)) as Hkeys'
    by (by rewrite sort_by_key_perm).
  split; [|split].
  - by rewrite sort_by_key_perm, Hl.
  - by apply sorted_files; [apply sort_by_key_sorted|].
  - intros k. rewrite <- Hl, <- !filter_keyed by done.
    by rewrite sort_by_key_stable.
Qed.

(** X9.  When no sort key raises, the files are processed in a
    permutation of the directory listing that is ascending in the key;
    files with the same key keep the order of the listing. *)
Theorem sorted_order (l l' : list TxtFile) :
  sorted l = Return l' ->
  l' ≡ₚ l
  /\ StronglySorted (fun f g => key_of f <= key_of g) l'
  /\ forall k, filter (fun f => key_of f = k) l' = filter (fun f => key_of f = k) l.
Proof. apply sorted_facts. Qed.

End Order.

Lemma sorted_order_witness :
  let a := {| name := u "10.txt"; text := u "第十回 乙" |} in
  let b := {| name := u "x.txt"; text := u "Preface" |} in
  let c := {| name := u "2.txt"; text := u "第二回 甲" |} in
  let d := {| name := u "y.txt"; text := u "Notes" |} in
  @sorted latin1 [a; b; c; d] = Return [b; d; c; a]
  /\ map (@key_of latin1) [b; d; c; a] = [0; 0; 2; 10]
  /\ [b; d; c; a] ≡ₚ [a; b; c; d].
Proof.
  intros a b c d.
  assert (@sorted latin1 [a; b; c; d] = Return [b; d; c; a]) as Hs
    by (vm_compute; reflexivity).
  destruct (@sorted_order latin1 _ _ Hs) as (Hperm & _ & _).
  split; [done|]. split; [vm_compute; reflexivity|done].
Defined.

(** ** Runs that cannot abort *)

Lemma long_digits_all_digits s acc :
  Forall (fun c => (48 <= c <= 57)%N) s ->
  exists v, long_digits acc s = Some (v, []).
Proof.
  intros Hs. revert acc. induction Hs as [|c s Hc _ IH]; intros acc.
  - by exists acc.
  - cbn [long_digits]. unfold ascii_digit.
    destruct (N.leb_spec 48 c), (N.leb_spec c 57); try lia. cbn [andb].
    apply IH.
Qed.

Lemma long_from_string_all_digits s :
  s <> [] -> Forall (fun c => (48 <= c <= 57)%N) s ->
  exists v, long_from_string s = Some v.
Proof.
  destruct s as [|c s]; [done|]. intros _ [Hc Hs]%Forall_cons.
  unfold long_from_string. cbn [skip].
  assert (Py_ISSPACE c = false) as ->.
  { unfold Py_ISSPACE. destruct (N.leb_spec 9 c), (N.leb_spec c 13),
      (N.eqb_spec c 32); try done; lia. }
  destruct (N.eqb_spec c 43); [lia|]. destruct (N.eqb_spec c 45); [lia|].
  unfold ascii_digit.
  destruct (N.leb_spec 48 c), (N.leb_spec c 57); try lia. cbn [andb].
  destruct (long_digits_all_digits s (Z.of_N c - 48) Hs) as [v ->].
  by exists v.
Qed.

Section NoAbort.
Context `{UnicodeData}.

Lemma sort_key_ascii f :
  (forall c, (c < 128)%N -> isdigit_cp c = true -> (48 <= c <= 57)%N) ->
  forallb (fun c => (c <? 128)%N) (stem f) = true ->
  exists k, sort_key f = Return k.
Proof.
  intros Htable Hascii. unfold sort_key.
  destruct (isdigit (stem f)) eqn:Hd; [|by exists 0].
  unfold py_int, to_ascii. rewrite Hascii.
  destruct (long_from_string_all_digits (stem f)) as [v ->]; [..|by exists v].
  - by destruct (stem f).
  - unfold isdigit in Hd. assert (forallb isdigit_cp (stem f) = true) as Hall
      by (by destruct (stem f)).
    apply Forall_forall. intros c Hc%list_elem_of_In.
    rewrite forallb_forall in Hall, Hascii.
    apply Htable; [|by apply Hall]. by apply N.ltb_lt, Hascii.
Qed.

Lemma keyed_all_return l :
  Forall (fun f => exists k, sort_key f = Return k) l ->
  exists kl, keyed l = Return kl.
Proof.
  induction 1 as [|f l [k Hk] _ [kl Hkl]]; [by exists []|].
  cbn [keyed]. rewrite Hk. cbn. rewrite Hkl. cbn. by eexists.
Qed.

(** X10.  With the ASCII digits as the only ASCII characters that
    [isdigit()] accepts, a run over files whose base names are ASCII never
    ends with an exception: every file is attempted. *)
Theorem ascii_names_never_abort (fs : Files) :
  (forall c, (c < 128)%N -> isdigit_cp c = true -> (48 <= c <= 57)%N) ->
  Forall (fun f => forallb (fun c => (c <? 128)%N) (stem f) = true)
         (source_dir fs) ->
  raised (main fs) = None
  /\ exists l, sorted (source_dir fs) = Return l
               /\ (l <> [] ->
                   stdout (main fs)
                   = [Found (length l)] ++ concat (map lines_of l) ++ [Done]).
Proof.
  intros Htable Hascii.
  destruct (keyed_all_return (source_dir fs)) as [kl Hkl].
  { eapply Forall_impl; [exact Hascii|]. intros f Hf. by apply sort_key_ascii. }
  assert (sorted (source_dir fs) = Return (map snd (sort_by_key kl))) as Hs
    by (unfold sorted; by rewrite Hkl).
  split.
  - unfold main. cbn [source_dir]. rewrite Hs.
    destruct (nonempty _); [|done].
    by destruct (fold_left process _ _).
  - eexists. split; [exact Hs|]. intros Hne.
    by rewrite (main_completes fs _ Hs Hne).
Qed.

End NoAbort.

Lemma latin1_ascii_digits c :
  (c < 128)%N -> @isdigit_cp latin1 c = true -> (48 <= c <= 57)%N.
Proof.
  intros Hc. cbn [isdigit_cp latin1].
  destruct (N.leb_spec 48 c), (N.leb_spec c 57), (N.eqb_spec c 0xB2),
    (N.eqb_spec c 0xB3), (N.eqb_spec c 0xB9); cbn; intros ?; try done; lia.
Qed.

Lemma ascii_names_never_abort_witness :
  let fs := {| source_dir := [ {| name := u "10.txt"; text := u "第十回 乙" |};
                               {| name := u "x.txt"; text := u "Preface" |} ];
               output_dir := None |} in
  Forall (fun f => forallb (fun c => (c <? 128)%N) (stem f) = true) (source_dir fs)
  /\ raised (@main latin1 fs) = None.
Proof.
  intros fs.
  assert (Forall (fun f => forallb (fun c => (c <? 128)%N) (stem f) = true)
                 (source_dir fs)) as Hascii
    by (repeat constructor).
  destruct (@ascii_names_never_abort latin1 fs latin1_ascii_digits Hascii)
    as [Hr _].
  done.
Defined.

(** ** What a run writes *)

Lemma write_other (kvs : list (str * str)) (out : gmap str str) k :
  k ∉ map fst kvs -> fold_left write kvs out !! k = out !! k.
Proof.
  revert out. induction kvs as [|[k' v] kvs IH]; intros out Hk; [done|].
  cbn [map fst] in Hk. apply not_elem_of_cons in Hk as [Hne Hk].
  cbn [fold_left]. rewrite (IH _ Hk). unfold write. cbn [fst snd].
  by rewrite lookup_insert_ne.
Qed.




Section Written.
Context `{UnicodeData}.

Lemma output_of_eq f :
  output_of f =
  match parse_txt_file f with
  | Return c => Some (output_name (id c), json_dump c)
  | Raise _ => None
  end.
Proof. reflexivity. Qed.

Lemma output_names l :
  map fst (omap output_of l) = map output_name (omap id_of l).
Proof.
  induction l as [|f l IH]; [done|].
  change (omap output_of (f :: l))
    with (match output_of f with
          | Some kv => kv :: omap output_of l
          | None => omap output_of l
          end).
  change (omap id_of (f :: l))
    with (match id_of f with
          | Some n => n :: omap id_of l
          | None => omap id_of l
          end).
  rewrite output_of_eq. unfold id_of.
  destruct (parse_txt_file f); cbn [map fst]; by rewrite ?IH.
Qed.

(** The output directory after a run: the writes of the processed files,
    in order, over what was there. *)
Lemma main_files fs :
  files (main fs)
  = {| source_dir := source_dir fs;
       output_dir := Some (fold_left write
                             (omap output_of (processed (source_dir fs)))
                             (default ∅ (output_dir fs))) |}.
Proof.
  unfold main, processed. cbn [source_dir].
  destruct (sorted (source_dir fs)) as [l|e] eqn:Hs; [|done].
  destruct l as [|f l]; [done|]. cbn [nonempty].
  rewrite process_loop. done.
Qed.

(** X11.  A run writes files named [chapter-<id>.json] only: a file of
    the output directory with any other name is left as it was, and the
    source directory is not changed. *)
Theorem only_chapter_files_written (fs : Files) (k : str) :
  (forall n, k <> output_name n) ->
  default ∅ (output_dir (files (main fs))) !! k = default ∅ (output_dir fs) !! k
  /\ source_dir (files (main fs)) = source_dir fs.
Proof.
  intros Hk. rewrite main_files.
  cbn [output_dir source_dir]. split; [|done].
  change (default ∅ (Some ?m)) with m. apply write_other.
  rewrite output_names. intros Hin. apply list_elem_of_In, in_map_iff in Hin.
  destruct Hin as (n & <- & _). by apply (Hk n).
Qed.


End Written.

Lemma only_chapter_files_written_witness :
  let fs := {| source_dir := [ {| name := u "2.txt"; text := u "第二回 甲" |} ];
               output_dir := Some {[ u "notes.txt" := u "keep" ]} |} in
  (forall n, u "notes.txt" <> output_name n)
  /\ default ∅ (output_dir (files (@main latin1 fs))) !! u "notes.txt"
     = Some (u "keep")
  /\ default ∅ (output_dir (files (@main latin1 fs))) !! u "chapter-002.json"
     = Some (json_dump {| id := 2; title := u "第二回 甲"; titleText := u "甲";
                          paragraphs := [] |}).
Proof.
  intros fs.
  assert (forall n, u "notes.txt" <> output_name n) as Hk.
  { intros n E. apply (f_equal (hd 0%N)) in E. by vm_compute in E. }
  destruct (@only_chapter_files_written latin1 fs (u "notes.txt") Hk) as [E _].
  split; [done|]. split; [rewrite E|]; vm_compute; reflexivity.
Defined.


(** ** More on paragraphs *)

Lemma runs_app lines1 l lines2 :
  Spec.blank l = true ->
  Spec.runs (lines1 ++ l :: lines2) = Spec.runs lines1 ++ Spec.runs lines2.
Proof. intros Hl. unfold Spec.runs. by rewrite groups_app, filter_app. Qed.

Lemma paragraph_step_strip st l l' :
  strip l = strip l' -> paragraph_step st l = paragraph_step st l'.
Proof. unfold paragraph_step. destruct st. by intros ->. Qed.

(** X13.  A blank line cuts the body in two independent parts: the
    paragraphs of the whole are those of the lines before it followed by
    those of the lines after it.  Lines without a blank line between them
    make one paragraph. *)
Theorem paragraphs_compose (before after run : list str) (l : str) :
  Spec.blank l = true ->
  run <> [] -> Forall (fun x => Spec.blank x = false) run ->
  parse_paragraphs (before ++ l :: after)
  = parse_paragraphs before ++ parse_paragraphs after
  /\ parse_paragraphs run = [ {| content := [concat (map strip run)] |} ].
Proof.
  intros Hl Hne Hrun. rewrite !parse_paragraphs_spec. unfold Spec.paragraphs_of.
  split; [by rewrite runs_app, map_app|].
  unfold Spec.runs. rewrite groups_no_blank by done.
  rewrite filter_cons, filter_nil. by destruct (decide (run <> [])).
Qed.

Lemma paragraphs_compose_witness :
  let before := [u "A"; u "B"] in
  let after := [u "C"] in
  let l := [32; 9]%N in
  Spec.blank l = true
  /\ parse_paragraphs (before ++ l :: after)
     = [ {| content := [u "AB"] |}; {| content := [u "C"] |} ]
  /\ parse_paragraphs before = [ {| content := [u "AB"] |} ].
Proof.
  intros before after l.
  assert (Spec.blank l = true) as Hl by reflexivity.
  assert (before <> []) as Hne by done.
  assert (Forall (fun x => Spec.blank x = false) before) as Hb
    by (repeat constructor).
  destruct (paragraphs_compose before after before l Hl Hne Hb) as [E1 E2].
  split; [done|]. split; [rewrite E1|rewrite E2]; vm_compute; reflexivity.
Defined.

(** X14.  Only the trimmed lines count: two bodies whose lines agree once
    trimmed (different indentation, trailing spaces) give the same
    paragraphs. *)
Theorem indentation_ignored (lines lines' : list str) :
  map strip lines = map strip lines' ->
  parse_paragraphs lines = parse_paragraphs lines'.
Proof.
  intros E. unfold parse_paragraphs.
  assert (forall st, fold_left paragraph_step lines st
                     = fold_left paragraph_step lines' st) as ->; [|done].
  revert lines' E. induction lines as [|l lines IH]; intros [|l' lines'] E st;
    try done.
  injection E as El E. cbn [fold_left].
  rewrite (paragraph_step_strip st l l' El). by apply IH.
Qed.

Lemma indentation_ignored_witness :
  let lines := [u "  A "; [9%N]; u "B"] in
  let lines' := [u "A"; u ""; u "   B"] in
  map strip lines = map strip lines'
  /\ parse_paragraphs lines = parse_paragraphs lines'
  /\ parse_paragraphs lines' = [ {| content := [u "A"] |}; {| content := [u "B"] |} ].
Proof.
  intros lines lines'.
  assert (map strip lines = map strip lines') as E by (vm_compute; reflexivity).
  split; [done|]. split; [exact (indentation_ignored lines lines' E)|].
  vm_compute. reflexivity.
Defined.

Section EmptyFile.
Context `{UnicodeData}.

(** X15.  A file with nothing but white space has an empty title, no
    paragraph, and its id is taken from the file name: it is converted
    when the base name is a number and fails otherwise. *)
Theorem blank_file (f : TxtFile) :
  forallb isspace (text f) = true ->
  parse_txt_file f =
  (n ← py_int (stem f);
   Return {| id := n; title := []; titleText := []; paragraphs := [] |}).
Proof.
  intros Hs. apply strip_nil_iff in Hs.
  rewrite (parse_txt_file_fallback f []); unfold title_line, body_lines;
    rewrite Hs; reflexivity.
Qed.

End EmptyFile.

Lemma blank_file_witness :
  let f := {| name := u "4.txt"; text := [32; 10; 0x3000; 10]%N |} in
  let g := {| name := u "empty.txt"; text := [] |} in
  forallb isspace (text f) = true /\ forallb isspace (text g) = true
  /\ @parse_txt_file latin1 f
     = Return {| id := 4; title := []; titleText := []; paragraphs := [] |}
  /\ @parse_txt_file latin1 g = Raise (ValueError (u "empty")).
Proof.
  intros f g.
  assert (forallb isspace (text f) = true) as Hf by reflexivity.
  assert (forallb isspace (text g) = true) as Hg by reflexivity.
  split; [done|]. split; [done|].
  rewrite (@blank_file latin1 f Hf), (@blank_file latin1 g Hg).
  split; vm_compute; reflexivity.
Defined.

(** ** File names *)

Lemma rfind_last c a b : c ∉ b -> rfind c (a ++ c :: b) = Some (length a).
Proof.
  intros Hb. assert (rfind c b = None) as Hnone.
  { induction b as [|x b IH]; [done|]. apply not_elem_of_cons in Hb as [Hx Hb].
    cbn [rfind]. rewrite (IH Hb). by destruct (N.eqb_spec x c). }
  induction a as [|x a IH]; cbn [app rfind length].
  - by rewrite Hnone, N.eqb_refl.
  - by rewrite IH.
Qed.

(** X16.  The base name of a file called [s.txt] is [s], for every [s]
    that is not empty; the file called [.txt] keeps its whole name. *)
Theorem stem_of_txt_name (s : str) (content : str) :
  s <> [] ->
  stem {| name := s ++ u ".txt"; text := content |} = s
  /\ stem {| name := u ".txt"; text := content |} = u ".txt".
Proof.
  intros Hs. split; [|by vm_compute].
  unfold stem, path_stem. cbn [name].
  literal (u ".txt"). rewrite rfind_last by by_decide.
  rewrite length_app. cbn [length].
  assert (0 < length s)%nat by (destruct s; [done|simpl; lia]).
  destruct (Nat.ltb_spec 0 (length s)); [|lia].
  destruct (Nat.ltb_spec (length s) (length s + 4 - 1)); [|lia].
  cbn [andb]. by rewrite take_app_length.
Qed.

Lemma stem_of_txt_name_witness :
  u "12" <> []
  /\ stem {| name := u "12.txt"; text := [] |} = u "12"
  /\ stem {| name := u "a.b.txt"; text := [] |} = u "a.b".
Proof.
  assert (u "12" <> []) as H12 by (by vm_compute).
  assert (u "a.b" <> []) as Hab by (by vm_compute).
  destruct (stem_of_txt_name (u "12") [] H12) as [E1 _].
  destruct (stem_of_txt_name (u "a.b") [] Hab) as [E2 _].
  split; [done|]. split.
  - transitivity (stem {| name := u "12" ++ u ".txt"; text := [] |});
      [vm_compute; reflexivity|exact E1].
  - transitivity (stem {| name := u "a.b" ++ u ".txt"; text := [] |});
      [vm_compute; reflexivity|exact E2].
Defined.

Section EmptyDirectory.
Context `{UnicodeData}.

(** X17.  With no text file in the source directory, a run creates the
    output directory if it is missing, writes nothing, prints the notice
    and ends normally; the notice is printed in no other case. *)
Theorem empty_directory (fs : Files) :
  (source_dir fs = [] <-> stdout (main fs) = [NoFilesFound])
  /\ main {| source_dir := []; output_dir := output_dir fs |}
     = {| files := {| source_dir := [];
                      output_dir := Some (default ∅ (output_dir fs)) |};
          stdout := [NoFilesFound];
          raised := None |}.
Proof.
  split; [|done]. split.
  - destruct fs as [src out]. cbn [source_dir]. by intros ->.
  - unfold main. cbn [source_dir].
    destruct (sorted (source_dir fs)) as [l|e] eqn:Hs; [|done].
    destruct (sorted_facts _ _ Hs) as [Hperm _].
    destruct l as [|f l].
    + intros _. by apply Permutation_nil_l in Hperm.
    + cbn [nonempty]. rewrite process_loop. cbn [stdout]. done.
Qed.

End EmptyDirectory.
